(** * The streaming adapter of utils/server/index.ts

    A shallow embedding of [OpenAIStream]: the request it builds, its
    check of the response status, and the [ReadableStream] it returns,
    whose [start] function turns server-sent events into encoded text
    chunks.

    JavaScript strings are sequences of UTF-16 code units, property reads
    on [undefined] or [null] throw, [TextEncoder] replaces unpaired
    surrogates, and a stream controller queues chunks until the reader takes
    them: all of this is written out, since the adapter's behaviour depends
    on it. *)

From Stdlib.Strings Require Import Ascii String Byte.
From Stdlib Require Import List NArith ZArith Bool Lia.
From Stdlib Require Import DecimalString.
Import ListNotations.

Set Implicit Arguments.
Set Warnings "-register-all".

(** ** JavaScript strings *)

(** A string is its sequence of UTF-16 code units. *)
Definition jsstring := list N.

(** The string of an ASCII literal of the source. *)
Definition js (s : string) : jsstring :=
  map N_of_ascii (list_ascii_of_string s).

(** A literal that holds double quotes, each written as a backtick (the
    texts written this way hold no backtick of their own). *)
Definition jsq (s : string) : jsstring :=
  map (fun c => if Ascii.eqb c "`" then 34%N else N_of_ascii c)
      (list_ascii_of_string s).

Fixpoint str_eqb (a b : jsstring) : bool :=
  match a, b with
  | [], [] => true
  | x :: a', y :: b' => N.eqb x y && str_eqb a' b'
  | _, _ => false
  end.

(** Decimal text of an array index or a length. *)
Definition decimal (n : nat) : jsstring :=
  js (NilEmpty.string_of_uint (Nat.to_uint n)).

(** ** JavaScript values

    The values [JSON.parse] can return, and [undefined].  A Number is kept as
    the text [Number.prototype.toString] gives for it, which determines it up
    to the sign of zero; the adapter only tests numbers for truth and prints
    them. *)

Definition number := jsstring.

Inductive value : Type :=
| VUndefined
| VNull
| VBool (b : bool)
| VNumber (n : number)
| VString (s : jsstring)
| VArray (items : list value)
| VObject (props : list (jsstring * value)).

Definition props := list (jsstring * value).

(** [v == null], true of [null] and [undefined] alike. *)
Definition nullish (v : value) : bool :=
  match v with
  | VUndefined | VNull => true
  | _ => false
  end.

(** ToBoolean, as [if (v)], [v && w], [v || w] and [v ? a : b] apply it. *)
Definition ToBoolean (v : value) : bool :=
  match v with
  | VUndefined | VNull => false
  | VBool b => b
  | VNumber n => negb (str_eqb n (js "0") || str_eqb n (js "NaN"))
  | VString s => match s with [] => false | _ => true end
  | VArray _ | VObject _ => true
  end.

Definition js_and (a b : value) : value := if ToBoolean a then b else a.
Definition js_or (a b : value) : value := if ToBoolean a then a else b.

(** The text ToString gives for a value when the conversion returns.  An
    array prints its elements separated by commas, [null] and [undefined]
    elements as nothing.  The conversion of an object with a toString member
    of its own does not return: see [converts] and [ToStringOrThrow] below,
    through which a template literal, [new Error(message)] and
    [TextEncoder.encode] convert a value that may be one. *)
Fixpoint ToString (v : value) : jsstring :=
  match v with
  | VUndefined => js "undefined"
  | VNull => js "null"
  | VBool true => js "true"
  | VBool false => js "false"
  | VNumber n => n
  | VString s => s
  | VArray items =>
      let element x := if nullish x then [] else ToString x in
      (fix join (l : list value) : jsstring :=
         match l with
         | [] => []
         | [x] => element x
         | x :: rest => element x ++ js "," ++ join rest
         end) items
  | VObject _ => js "[object Object]"
  end.

(** ** Errors *)

(** Why the platform threw a TypeError; its message text is the engine's. *)
Inductive Cause : Type :=
| ReadOfNullish (key : jsstring)   (* a property of undefined or null *)
| CannotCloseOrEnqueue             (* close or enqueue on a controller that
                                      is closing, closed or errored *)
| NotABufferSource                 (* TextDecoder.decode of another value *)
| FetchFailed                      (* the network *)
| CannotConvert.                   (* ToString of an object that has no
                                      callable toString or valueOf giving a
                                      primitive *)

Inductive JsError : Type :=
| SyntaxError (message : jsstring)
| TypeError (why : Cause)
| Error (message : jsstring)
| OpenAIError (message : jsstring) (type param code : value).

(** A computation that returns or throws. *)
Definition result (A : Type) := (JsError + A)%type.

(** Whether ToString returns.  The members of a value of [JSON.parse] are
    never callable, so an object converts through the toString it inherits,
    unless a member of its own named toString hides it: the inherited
    valueOf returns the object, and the conversion throws.  An array
    converts its elements other than [null] and [undefined]. *)
Fixpoint converts (v : value) : bool :=
  match v with
  | VObject o => negb (existsb (fun kv => str_eqb (fst kv) (js "toString")) o)
  | VArray items =>
      (fix all (l : list value) : bool :=
         match l with
         | [] => true
         | x :: rest => converts x && all rest
         end) items
  | _ => true
  end.

(** ToString, throwing where the conversion does. *)
Definition ToStringOrThrow (v : value) : result jsstring :=
  if converts v then inr (ToString v) else inl (TypeError CannotConvert).

(** ** Property reads *)

Fixpoint own (o : props) (k : jsstring) : value :=
  match o with
  | [] => VUndefined
  | (k', v) :: o' => if str_eqb k' k then v else own o' k
  end.

Definition digit (u : N) : option N :=
  if (48 <=? u)%N && (u <=? 57)%N then Some (u - 48)%N else None.

Fixpoint digits (k : jsstring) (acc : N) : option N :=
  match k with
  | [] => Some acc
  | u :: k' =>
      match digit u with
      | Some d => digits k' (10 * acc + d)%N
      | None => None
      end
  end.

(** The index a property key names: decimal digits, no leading zero. *)
Definition array_index (k : jsstring) : option nat :=
  match k with
  | [] => None
  | u :: k' =>
      if N.eqb u 48 then match k' with [] => Some 0 | _ => None end
      else option_map N.to_nat (digits k 0)
  end.

(** [base.k] and [base[k]] for the data properties of a value (the keys the
    adapter reads name nothing inherited).  Reading a property of
    [undefined] or [null] throws; a missing one is [undefined]. *)
Definition Get (base : value) (k : jsstring) : result value :=
  match base with
  | VUndefined | VNull => inl (TypeError (ReadOfNullish k))
  | VObject o => inr (own o k)
  | VArray items =>
      if str_eqb k (js "length") then inr (VNumber (decimal (length items)))
      else match array_index k with
           | Some i => inr (nth i items VUndefined)
           | None => inr VUndefined
           end
  | VString s =>
      if str_eqb k (js "length") then inr (VNumber (decimal (length s)))
      else match array_index k with
           | Some i =>
               inr (match nth_error s i with
                    | Some u => VString [u]
                    | None => VUndefined
                    end)
           | None => inr VUndefined
           end
  | VBool _ | VNumber _ => inr VUndefined
  end.

(** ** Object literals *)

(** Defining a property keeps the place of a key already there. *)
Fixpoint define (k : jsstring) (v : value) (o : props) : props :=
  match o with
  | [] => [(k, v)]
  | (k', v') :: o' =>
      if str_eqb k' k then (k', v) :: o' else (k', v') :: define k v o'
  end.

Definition define_all (src : props) (o : props) : props :=
  fold_left (fun acc kv => define (fst kv) (snd kv) acc) src o.

Fixpoint indexed (i : nat) (l : list value) : props :=
  match l with
  | [] => []
  | x :: l' => (decimal i, x) :: indexed (S i) l'
  end.

(** [{...o, ...src}]: the own properties of [src], in order.  A string or
    an array spreads its indexed elements; other primitives, nothing. *)
Definition spread (src : value) (o : props) : props :=
  match src with
  | VObject ps => define_all ps o
  | VArray items => define_all (indexed 0 items) o
  | VString s => define_all (indexed 0 (map (fun u => VString [u]) s)) o
  | VUndefined | VNull | VBool _ | VNumber _ => o
  end.

(** ** TextEncoder *)

Definition byte_of_N (n : N) : byte := byte_of_ascii (ascii_of_N n).

Definition is_high (u : N) : bool := (0xD800 <=? u)%N && (u <=? 0xDBFF)%N.
Definition is_low (u : N) : bool := (0xDC00 <=? u)%N && (u <=? 0xDFFF)%N.

(** The scalar values of a string: a surrogate pair is one code point, an
    unpaired surrogate becomes U+FFFD. *)
Fixpoint scalar_values (s : jsstring) : list N :=
  match s with
  | [] => []
  | u :: rest =>
      if is_high u then
        match rest with
        | lo :: rest' =>
            if is_low lo
            then (0x10000 + (u - 0xD800) * 0x400 + (lo - 0xDC00))%N
                   :: scalar_values rest'
            else 0xFFFD%N :: scalar_values rest
        | [] => [0xFFFD%N]
        end
      else if is_low u then 0xFFFD%N :: scalar_values rest
      else u :: scalar_values rest
  end.

Definition utf8_of_scalar (c : N) : list byte :=
  let cont k := byte_of_N (N.lor 0x80 (N.land (N.shiftr c k) 0x3F)) in
  if (c <? 0x80)%N then [byte_of_N c]
  else if (c <? 0x800)%N then
    [byte_of_N (N.lor 0xC0 (N.shiftr c 6)); cont 0%N]
  else if (c <? 0x10000)%N then
    [byte_of_N (N.lor 0xE0 (N.shiftr c 12)); cont 6%N; cont 0%N]
  else
    [byte_of_N (N.lor 0xF0 (N.shiftr c 18)); cont 12%N; cont 6%N; cont 0%N].

Definition utf8 (s : jsstring) : list byte :=
  flat_map utf8_of_scalar (scalar_values s).


(** [encoder.encode(input)]: no argument or [undefined] encodes the empty
    string, any other value the text ToString gives for it; where ToString
    throws, so does the call. *)
Definition encode (input : value) : result (list byte) :=
  match input with
  | VUndefined => inr []
  | _ =>
      match ToStringOrThrow input with
      | inr s => inr (utf8 s)
      | inl e => inl e
      end
  end.

(** ** ReadableStream

    The default controller of the Streams standard, with the reader's side
    of the stream: [enqueue] hands a chunk to a waiting read or queues it,
    [close] with chunks still queued only marks the stream as closing, and
    [error] on a stream that is still readable drops the queue. *)

Definition chunk := list byte.

Inductive StreamState : Type :=
| readable
| closed
| errored (e : JsError).

Record ReadableStream : Type := {
  state : StreamState;
  queue : list chunk;
  closeRequested : bool;
  readRequests : nat;          (* reads waiting for a chunk *)
  received : list chunk        (* chunks the reader has been given *)
}.

Definition new_ReadableStream : ReadableStream :=
  {| state := readable; queue := []; closeRequested := false;
     readRequests := 0; received := [] |}.

(** Code that runs against the stream and may throw. *)
Definition M (A : Type) := ReadableStream -> result A * ReadableStream.

Definition ret {A} (a : A) : M A := fun s => (inr a, s).

Definition bind {A B} (m : M A) (k : A -> M B) : M B :=
  fun s =>
    match m s with
    | (inr a, s') => k a s'
    | (inl e, s') => (inl e, s')
    end.

Definition lift {A} (r : result A) : M A := fun s => (r, s).

Definition try_catch (body : M unit) (handler : JsError -> M unit) : M unit :=
  fun s =>
    match body s with
    | (inr a, s') => (inr a, s')
    | (inl e, s') => handler e s'
    end.

Declare Scope js_scope.
Delimit Scope js_scope with js.
Notation "x <- m ;; k" := (bind m (fun x => k))
  (at level 61, m at next level, right associativity) : js_scope.
Notation "m ;;; k" := (bind m (fun _ => k))
  (at level 61, right associativity) : js_scope.
Open Scope js_scope.

Definition CanCloseOrEnqueue (s : ReadableStream) : bool :=
  negb (closeRequested s) &&
  match state s with readable => true | _ => false end.

Definition controller_enqueue (c : chunk) : M unit :=
  fun s =>
    if CanCloseOrEnqueue s then
      match readRequests s with
      | S n =>
          (inr tt,
           {| state := state s; queue := queue s;
              closeRequested := closeRequested s;
              readRequests := n; received := received s ++ [c] |})
      | O =>
          (inr tt,
           {| state := state s; queue := queue s ++ [c];
              closeRequested := closeRequested s;
              readRequests := 0; received := received s |})
      end
    else (inl (TypeError CannotCloseOrEnqueue), s).

Definition controller_close : M unit :=
  fun s =>
    if CanCloseOrEnqueue s then
      match queue s with
      | [] =>
          (inr tt,
           {| state := closed; queue := []; closeRequested := true;
              readRequests := 0; received := received s |})
      | _ :: _ =>
          (inr tt,
           {| state := state s; queue := queue s; closeRequested := true;
              readRequests := readRequests s; received := received s |})
      end
    else (inl (TypeError CannotCloseOrEnqueue), s).

Definition controller_error (e : JsError) : M unit :=
  fun s =>
    match state s with
    | readable =>
        (inr tt,
         {| state := errored e; queue := [];
            closeRequested := closeRequested s;
            readRequests := 0; received := received s |})
    | closed | errored _ => (inr tt, s)
    end.

(** One [read()] of the reader. *)
Definition reader_read (s : ReadableStream) : ReadableStream :=
  match state s with
  | readable =>
      match queue s with
      | c :: rest =>
          {| state := if closeRequested s
                      then match rest with [] => closed | _ => readable end
                      else readable;
             queue := rest; closeRequested := closeRequested s;
             readRequests := readRequests s;
             received := received s ++ [c] |}
      | [] =>
          {| state := state s; queue := []; closeRequested := closeRequested s;
             readRequests := S (readRequests s); received := received s |}
      end
  | closed | errored _ => s
  end.

(** What a reader that reads to the end has got. *)
Inductive Ending : Type :=
| Done                      (* the stream closed *)
| Failed (e : JsError)      (* the stream errored with e *)
| Pending.                  (* still open: the next read waits *)

Record Output : Type := { chunks : list chunk; ending : Ending }.

Definition read_to_end (s : ReadableStream) : Output :=
  let s' := Nat.iter (length (queue s)) reader_read s in
  {| chunks := received s';
     ending := match state s' with
               | closed => Done
               | errored e => Failed e
               | readable => Pending
               end |}.


(** ** Server-sent events, as eventsource-parser hands them to its callback *)

Inductive SseEvent : Type :=
| ParsedEvent (event : option jsstring) (data : jsstring) (id : option jsstring)
| ReconnectInterval (interval : N).

(** A data event with only its data field. *)
Definition data_event (data : jsstring) : SseEvent := ParsedEvent None data None.

(** ** JSON.stringify *)

Definition hex_digit (n : N) : N :=
  if (n <? 10)%N then (48 + n)%N else (87 + n)%N.

(** A backslash, u and four hexadecimal digits. *)
Definition unicode_escape (u : N) : jsstring :=
  [92%N; 117%N; hex_digit (N.shiftr u 12); hex_digit (N.land (N.shiftr u 8) 15);
   hex_digit (N.land (N.shiftr u 4) 15); hex_digit (N.land u 15)].

Definition short_escape (u : N) : option N :=
  if N.eqb u 34 then Some 34%N            (* the double quote *)
  else if N.eqb u 92 then Some 92%N       (* the backslash *)
  else if N.eqb u 8 then Some 98%N        (* b *)
  else if N.eqb u 9 then Some 116%N       (* t *)
  else if N.eqb u 10 then Some 110%N      (* n *)
  else if N.eqb u 12 then Some 102%N      (* f *)
  else if N.eqb u 13 then Some 114%N      (* r *)
  else None.

Fixpoint escaped (s : jsstring) : jsstring :=
  match s with
  | [] => []
  | u :: rest =>
      match short_escape u with
      | Some c => 92%N :: c :: escaped rest
      | None =>
          if (u <? 32)%N then unicode_escape u ++ escaped rest
          else if is_high u then
            match rest with
            | lo :: rest' =>
                if is_low lo then u :: lo :: escaped rest'
                else unicode_escape u ++ escaped rest
            | [] => unicode_escape u
            end
          else if is_low u then unicode_escape u ++ escaped rest
          else u :: escaped rest
      end
  end.

Definition quoted (s : jsstring) : jsstring := [34%N] ++ escaped s ++ [34%N].

Fixpoint joined (sep : jsstring) (parts : list jsstring) : jsstring :=
  match parts with
  | [] => []
  | [p] => p
  | p :: rest => p ++ sep ++ joined sep rest
  end.

(** The text of a value, [None] where [JSON.stringify] gives [undefined]:
    an object leaves such a property out, an array prints it as null. *)
Fixpoint serialize (v : value) : option jsstring :=
  match v with
  | VUndefined => None
  | VNull => Some (js "null")
  | VBool true => Some (js "true")
  | VBool false => Some (js "false")
  | VNumber n =>
      if str_eqb n (js "NaN") || str_eqb n (js "Infinity")
         || str_eqb n (js "-Infinity")
      then Some (js "null") else Some n
  | VString s => Some (quoted s)
  | VArray items =>
      Some (js "[" ++
            joined (js ",")
              (map (fun x => match serialize x with
                             | Some t => t
                             | None => js "null"
                             end) items)
            ++ js "]")
  | VObject ps =>
      Some (js "{" ++
            joined (js ",")
              (flat_map (fun kv => match serialize (snd kv) with
                                   | Some t => [quoted (fst kv) ++ js ":" ++ t]
                                   | None => []
                                   end) ps)
            ++ js "}")
  end.

Definition JSON_stringify (v : value) : value :=
  match serialize v with
  | Some t => VString t
  | None => VUndefined
  end.

(** ** The request *)

(** Lines joined by U+000A. *)
Fixpoint lines (ls : list jsstring) : jsstring :=
  match ls with
  | [] => []
  | [l] => l
  | l :: rest => l ++ [10%N] ++ lines rest
  end.

(** The content of the system message: the template literal of the source,
    line by line. *)
Definition system_content : jsstring := lines [
    jsq "{";
    jsq "            `name`: `IELTS Writing Excellence Assessor`,";
    jsq "            `description`: `This assessor is an expert in evaluating IELTS writing tasks, utilizing a deep understanding of IELTS writing standards and significant experience in guiding students towards superior writing skills and improved IELTS scores.`,";
    jsq "            `evaluationCriteria`: {";
    jsq "                `Task Achievement`: {";
    jsq "                    `description`: `Assesses the extent to which the input answers the question, maintaining a clear position throughout, including supportive details and examples.`,";
    jsq "                    `scoreRange`: `0-9`";
    jsq "                },";
    jsq "                `Coherence and Cohesion`: {";
    jsq "                    `description`: `Examines logical organization, effective paragraphing, clearly defined central ideas for each paragraph, and appropriate use of cohesive devices.`,";
    jsq "                    `scoreRange`: `0-9`";
    jsq "                },";
    jsq "                `Lexical Resource`: {";
    jsq "                    `description`: `Evaluates the range and precision of vocabulary, suitability of word choice, and the diversity in language use.`,";
    jsq "                    `scoreRange`: `0-9`";
    jsq "                },";
    jsq "                `Grammatical Range and Accuracy`: {";
    jsq "                    `description`: `Investigates the range and accuracy of grammatical structures, considering any grammatical errors, and the complexity of grammar used.`,";
    jsq "                    `scoreRange`: `0-9`";
    jsq "                }";
    jsq "            },";
    jsq "            `inputParams`: {";
    jsq "                `%question`: `The provided IELTS writing question is represented as '%question'.`,";
    jsq "                `%answer`: `The student's response to the question is represented as '%answer'.`";
    jsq "            },";
    jsq "            `outputs`: {";
    jsq "                `score`: {";
    jsq "                    `description`: `The score given to the student's writing based on the IELTS writing criteria.`,";
    jsq "                    `range`: `0-9`,";
    jsq "                    `score`: `%number between 0-9`";
    jsq "                },";
    jsq "                `scoringRationale`: {";
    jsq "                    `description`: `An explanation for the score under each evaluation criterion and an overall justification in accordance with IELTS writing standards.`,";
    jsq "                    `outputExample`: [";
    jsq "                        {";
    jsq "                            `criterion`: `Task Fulfillment`,";
    jsq "                            `score`: `%number between 0-9`,";
    jsq "                            `rationale`: `The student's response is well-structured and thoroughly developed, showcasing a clear viewpoint and inclusive of relevant details and examples.`";
    jsq "                        },";
    jsq "                        {";
    jsq "                            `criterion`: `Coherence and Cohesion`,";
    jsq "                            `score`: `%number between 0-9`,";
    jsq "                            `rationale`: `The student's response is logically structured, with a clear central theme within each paragraph and apt use of cohesive devices.`";
    jsq "                        },";
    jsq "                        {";
    jsq "                            `criterion`: `Lexical Resource`,";
    jsq "                            `score`: `%number between 0-9`,";
    jsq "                            `rationale`: `The student's response demonstrates a wide range of vocabulary, with appropriate word selection and lexical variations.`";
    jsq "                        },";
    jsq "                        {";
    jsq "                            `criterion`: `Grammatical Range and Accuracy`,";
    jsq "                            `score`: `%number between 0-9`,";
    jsq "                            `rationale`: `The student's response demonstrates a wide range of grammar, with few grammatical errors and the complexity of used grammatical structures.`";
    jsq "                        },";
    jsq "                        {";
    jsq "                            `criterion`: `Overall`,";
    jsq "                            `score`: `%number between 0-9`,";
    jsq "                            `rationale`: `The overall student's response is coherently organized, well-elaborated, exhibits broad range of vocabulary and grammar with minimal errors.`";
    jsq "                        }";
    jsq "                    ]";
    jsq "                },";
    jsq "                `errorSentenceRevision`: {";
    jsq "                    `description`: `Revisions of the student's writing based on IELTS standards, presented in markdown format with erroneous parts highlighted.`,";
    jsq "                    `outputFormat`: `markdown table format`,";
    jsq "                    `outputRequirements`: [";
    jsq "                        `Only sentences with errors need to be included. Sentences without errors should be ignored in the output.`,";
    jsq "                        `The output should be in HTML Table format. The revised words or sentences should be highlighted using the <span> tag with a style attribute of 'color:#7B68EE;background:black'.`";
    jsq "                    ],";
    jsq "                    `outputExample`: [{";
    jsq "                        `original`: `%(the original sentence)`,";
    jsq "                        `revised`: `%(the revised sentence)`,";
    jsq "                        `reason`: `%(the reason for revision)`,";
    jsq "                        `errorType`: `%(the type of error)`";
    jsq "                    }]";
    jsq "                },";
    jsq "                `benchmarkEssay`: {";
    jsq "                    `description`: `A model essay adhering to IELTS writing standards that showcases an ideal response, presented in markdown format.`,";
    jsq "                    `outputFormat`: `markdown`";
    jsq "                }";
    jsq "            },";
    jsq "            `requirements`: [";
    jsq "                `DO REMEMBER OUTPUT THE RESULT IN **markdown** FORMAT.`";
    jsq "            ]";
    jsq "        }";
    jsq "        "
  ].

(** An object literal, member by member. *)
Inductive member : Type :=
| Property (k : jsstring) (v : value)
| Spread (src : value).

Definition object_literal (ms : list member) : value :=
  VObject
    (fold_left
       (fun o m =>
          match m with
          | Property k v => define k v o
          | Spread src => spread src o
          end)
       ms []).

(** Modelled from the spec: the Message type of '@/types/chat', a role tag
    plus a content string. *)
Record Message : Type := { role : jsstring; content : jsstring }.

(** Modelled from the spec: the OpenAIModel type of '@/types/openai', of
    which the adapter reads the identifier. *)
Record OpenAIModel : Type := { id : jsstring }.

(** A message as the object the array holds. *)
Definition Message_value (m : Message) : value :=
  VObject [(js "role", VString (role m)); (js "content", VString (content m))].

(** What [fetch] is given: the URL and the members of its second
    argument. *)
Module Request.
Record t : Type := {
  url : jsstring;
  headers : value;
  method : jsstring;
  body : value
}.
End Request.

(** A response of [fetch]: its status line, what [res.json()] resolves to or
    rejects with, and the events that feeding [res.body] to the event-stream
    parser gives, in order. *)
Module Response.
Record t : Type := {
  status : Z;
  statusText : jsstring;
  json : result value;
  body : list SseEvent
}.
End Response.

(** The stream a call returns, as what its reader gets: [reads] gives, for
    each event of the body in turn, how many [read()] the reader issues
    before that event is parsed; once the body is over the reader takes what
    is left. *)
Definition ByteStream := list nat -> Output.

(** [decoder.decode(input)]: no input decodes to the empty string; no JSON
    value is a buffer. *)
Definition decode (input : value) : result value :=
  match input with
  | VUndefined => inr (VString [])
  | _ => inl (TypeError NotABufferSource)
  end.

(** [new OpenAIError(message, type, param, code)]: [Error] keeps the text
    of a message that is not [undefined], and the construction throws where
    the conversion of the message does. *)
Definition new_OpenAIError (message type param code : value)
  : result JsError :=
  match message with
  | VUndefined => inr (OpenAIError [] type param code)
  | _ =>
      match ToStringOrThrow message with
      | inr m => inr (OpenAIError m type param code)
      | inl e => inl e
      end
  end.

Definition bind_result {A B} (r : result A) (k : A -> result B) : result B :=
  match r with
  | inr a => k a
  | inl e => inl e
  end.

Notation "'let?' x := r 'in' k" := (bind_result r (fun x => k))
  (at level 10, x name, r at level 100, k at level 200) : js_scope.

(** ** Sample payloads

    The texts the examples below feed to the adapter, each with the value
    [JSON.parse] gives for it; the end marker of the upstream API is the one
    text among them that is not JSON. *)

Definition delta_of (content : value) : value :=
  VObject [(js "choices",
            VArray [VObject [(js "delta", VObject [(js "content", content)]);
                             (js "finish_reason", VNull)]])].

Definition sample_texts : list (jsstring * value) := [
  (jsq "{`choices`:[{`delta`:{`content`:`a`},`finish_reason`:null}]}",
   delta_of (VString (js "a")));
  (jsq "{`choices`:[{`delta`:{`content`:`b`},`finish_reason`:null}]}",
   delta_of (VString (js "b")));
  (jsq "{`choices`:[{`delta`:{`content`:`\ud83d`},`finish_reason`:null}]}",
   delta_of (VString [0xD83D%N]));
  (jsq "{`choices`:[{`delta`:{`content`:`\ude00`},`finish_reason`:null}]}",
   delta_of (VString [0xDE00%N]));
  (jsq "{`choices`:[{`delta`:{},`finish_reason`:`stop`}]}",
   VObject [(js "choices",
             VArray [VObject [(js "delta", VObject []);
                              (js "finish_reason", VString (js "stop"))]])]);
  (jsq "{`choices`:[{`delta`:{`role`:`assistant`},`finish_reason`:null}]}",
   VObject [(js "choices",
             VArray [VObject [(js "delta",
                               VObject [(js "role", VString (js "assistant"))]);
                              (js "finish_reason", VNull)]])]);
  (jsq "{`choices`:[]}", VObject [(js "choices", VArray [])]);
  (jsq "{`choices`:[{`finish_reason`:null}]}",
   VObject [(js "choices", VArray [VObject [(js "finish_reason", VNull)]])]);
  (js "{}", VObject [])
].

Definition sample_parse (t : jsstring) : result value :=
  match find (fun entry => str_eqb (fst entry) t) sample_texts with
  | Some entry => inr (snd entry)
  | None => inl (SyntaxError (js "Unexpected token in JSON"))
  end.

Definition content_a : SseEvent :=
  data_event (jsq "{`choices`:[{`delta`:{`content`:`a`},`finish_reason`:null}]}").
Definition content_b : SseEvent :=
  data_event (jsq "{`choices`:[{`delta`:{`content`:`b`},`finish_reason`:null}]}").
Definition role_only : SseEvent :=
  data_event
    (jsq "{`choices`:[{`delta`:{`role`:`assistant`},`finish_reason`:null}]}").
Definition finish_stop : SseEvent :=
  data_event (jsq "{`choices`:[{`delta`:{},`finish_reason`:`stop`}]}").
Definition done_marker : SseEvent := data_event (js "[DONE]").
Definition empty_object : SseEvent := data_event (js "{}").
Definition empty_choices : SseEvent := data_event (jsq "{`choices`:[]}").
Definition no_delta : SseEvent :=
  data_event (jsq "{`choices`:[{`finish_reason`:null}]}").

(** A configuration of the openai flavour and the arguments of a call. *)
Definition sample_host : jsstring := js "https://api.openai.com".
Definition sample_flavour : jsstring := js "openai".
Definition sample_version : jsstring := js "2023-03-15-preview".
Definition sample_prompt : jsstring := js "You are a helpful assistant.".
Definition sample_temperature : number := js "1".
Definition sample_key : jsstring := js "sk-test".
Definition sample_model : OpenAIModel := {| id := js "gpt-4" |}.
Definition sample_messages : list Message :=
  [{| role := js "user"; content := js "Hello" |}].

(** A network that answers every request with the same response. *)
Definition answers (res : Response.t) : Request.t -> result Response.t :=
  fun _ => inr res.

Definition ok_response (events : list SseEvent) : Response.t :=
  {| Response.status := 200; Response.statusText := js "OK";
     Response.json := inl (SyntaxError (js "Unexpected token in JSON"));
     Response.body := events |}.

Definition error_response (code : Z) (reason : jsstring) (payload : value)
  : Response.t :=
  {| Response.status := code; Response.statusText := reason;
     Response.json := inr payload; Response.body := [] |}.

(** A 401 with the error object of the upstream API. *)
Definition rejected : Response.t :=
  error_response 401 (js "Unauthorized")
    (VObject
       [(js "error",
         VObject [(js "message", VString (js "Incorrect API key provided"));
                  (js "type", VString (js "invalid_request_error"));
                  (js "param", VNull);
                  (js "code", VString (js "invalid_api_key"))])]).

(** One more payload, with a null content, and [JSON.parse] on the sample
    texts and on it. *)
Definition content_null : SseEvent :=
  data_event (jsq "{`choices`:[{`delta`:{`content`:null},`finish_reason`:null}]}").

Definition parse_with_null (t : jsstring) : result value :=
  if str_eqb t
       (jsq "{`choices`:[{`delta`:{`content`:null},`finish_reason`:null}]}")
  then inr (delta_of VNull)
  else sample_parse t.

(** Bodies of other shapes: an error given as a text, an error that is
    null beside a statusText member, a value member, and JSON null. *)
Definition error_as_text : Response.t :=
  error_response 429 (js "Too Many Requests")
    (VObject [(js "error", VString (js "Rate limit reached"))]).

Definition null_error : Response.t :=
  error_response 502 (js "Bad Gateway")
    (VObject [(js "error", VNull); (js "statusText", VString (js "upstream"))]).

Definition value_member : Response.t :=
  error_response 500 (js "Internal Server Error")
    (VObject [(js "value", VString (js "oops"))]).

Definition null_body : Response.t :=
  error_response 500 (js "Internal Server Error") VNull.

(** A body that is not JSON, as [res.json()] rejects it. *)
Definition html_body : Response.t :=
  {| Response.status := 502; Response.statusText := js "Bad Gateway";
     Response.json := inl (SyntaxError (js "Unexpected token < in JSON"));
     Response.body := [] |}.

(** A payload whose content is an object with a toString member of its
    own, which no conversion to a text accepts, [JSON.parse] on it too, and
    an error body whose message is such an object. *)
Definition content_object : SseEvent :=
  data_event
    (jsq "{`choices`:[{`delta`:{`content`:{`toString`:1}},`finish_reason`:null}]}").

Definition parse_with_object (t : jsstring) : result value :=
  if str_eqb t
       (jsq "{`choices`:[{`delta`:{`content`:{`toString`:1}},`finish_reason`:null}]}")
  then inr (delta_of (VObject [(js "toString", VNumber (js "1"))]))
  else parse_with_null t.

Definition unconvertible_message : Response.t :=
  error_response 400 (js "Bad Request")
    (VObject
       [(js "error",
         VObject [(js "message",
                   VObject [(js "toString", VNumber (js "1"))])])]).
Section Adapter.

(** The constants of '../app/const' and the environment's default key. *)
Variable OPENAI_API_HOST : jsstring.
Variable OPENAI_API_TYPE : jsstring.
Variable OPENAI_API_VERSION : jsstring.
Variable OPENAI_ORGANIZATION : jsstring.
Variable AZURE_DEPLOYMENT_ID : jsstring.
Variable env_OPENAI_API_KEY : option jsstring.

(** The platform: [JSON.parse] and the network. *)
Variable JSON_parse : jsstring -> result value.
Variable fetch : Request.t -> result Response.t.

Definition request_url : jsstring :=
  if str_eqb OPENAI_API_TYPE (js "azure")
  then OPENAI_API_HOST ++ js "/openai/deployments/" ++ AZURE_DEPLOYMENT_ID
         ++ js "/chat/completions?api-version=" ++ OPENAI_API_VERSION
  else OPENAI_API_HOST ++ js "/v1/chat/completions".

(** [key ? key : process.env.OPENAI_API_KEY] *)
Definition key_or_default (key : jsstring) : value :=
  if ToBoolean (VString key) then VString key
  else match env_OPENAI_API_KEY with
       | Some k => VString k
       | None => VUndefined
       end.

Definition request_headers (key : jsstring) : value :=
  object_literal [
    Property (js "Content-Type") (VString (js "application/json"));
    Spread (js_and (VBool (str_eqb OPENAI_API_TYPE (js "openai")))
              (object_literal [
                 Property (js "Authorization")
                   (VString (js "Bearer " ++ ToString (key_or_default key)))]));
    Spread (js_and (VBool (str_eqb OPENAI_API_TYPE (js "azure")))
              (object_literal [
                 Property (js "api-key")
                   (VString (ToString (key_or_default key)))]));
    Spread (js_and (js_and (VBool (str_eqb OPENAI_API_TYPE (js "openai")))
                           (VString OPENAI_ORGANIZATION))
              (object_literal [
                 Property (js "OpenAI-Organization")
                   (VString OPENAI_ORGANIZATION)]))
  ].

Definition system_message : value :=
  object_literal [
    Property (js "role") (VString (js "system"));
    Property (js "content") (VString system_content)
  ].

(** The object given to [JSON.stringify]. *)
Definition request_json (model : OpenAIModel) (messages : list Message)
  : value :=
  object_literal [
    Spread (js_and (VBool (str_eqb OPENAI_API_TYPE (js "openai")))
              (object_literal [Property (js "model") (VString (id model))]));
    Property (js "messages")
      (VArray (system_message :: map Message_value messages));
    Property (js "max_tokens") (VNumber (js "4000"));
    Property (js "temperature") (VNumber (js "0"));
    Property (js "stream") (VBool true);
    Property (js "model") (VString (js "gpt-3.5-turbo-16k"))
  ].

Definition request (model : OpenAIModel) (systemPrompt : jsstring)
    (temperature : number) (key : jsstring) (messages : list Message)
  : Request.t :=
  {| Request.url := request_url;
     Request.headers := request_headers key;
     Request.method := js "POST";
     Request.body := JSON_stringify (request_json model messages) |}.

(** The callback given to [createParser]. *)
Definition onParse (event : SseEvent) : M unit :=
  match event with
  | ParsedEvent _ data _ =>
      try_catch
        (json <- lift (JSON_parse data) ;;
         choices <- lift (Get json (js "choices")) ;;
         choice <- lift (Get choices (js "0")) ;;
         finish_reason <- lift (Get choice (js "finish_reason")) ;;
         if negb (nullish finish_reason) then controller_close
         else
           choices <- lift (Get json (js "choices")) ;;
           choice <- lift (Get choices (js "0")) ;;
           delta <- lift (Get choice (js "delta")) ;;
           text <- lift (Get delta (js "content")) ;;
           queue <- lift (encode text) ;;
           controller_enqueue queue)
        (fun e => controller_error e)
  | ReconnectInterval _ => ret tt
  end.

(** The [start] function: every event of the body goes through [onParse],
    the reader reading in between as [reads] says. *)
Fixpoint start (events : list SseEvent) (reads : list nat)
    (s : ReadableStream) : ReadableStream :=
  match events with
  | [] => s
  | event :: events' =>
      start events' (tl reads)
        (snd (onParse event (Nat.iter (hd 0 reads) reader_read s)))
  end.

Definition stream_of (events : list SseEvent) : ByteStream :=
  fun reads => read_to_end (start events reads new_ReadableStream).

Definition OpenAIStream (model : OpenAIModel) (systemPrompt : jsstring)
    (temperature : number) (key : jsstring) (messages : list Message)
  : result ByteStream :=
  let? res := fetch (request model systemPrompt temperature key messages) in
  if negb (Z.eqb (Response.status res) 200) then
    let? result := Response.json res in
    let? error := Get result (js "error") in
    if ToBoolean error then
      let? message := Get error (js "message") in
      let? type := Get error (js "type") in
      let? param := Get error (js "param") in
      let? code := Get error (js "code") in
      let? thrown := new_OpenAIError message type param code in
      inl thrown
    else
      let? value := (if nullish result then inr VUndefined
                     else Get result (js "value")) in
      let? decoded := decode value in
      let? detail := (if ToBoolean decoded then inr decoded
                      else Get result (js "statusText")) in
      let? shown := ToStringOrThrow detail in
      inl (Error (js "OpenAI API returned an error: " ++ shown))
  else
    inr (stream_of (Response.body res)).

(** *** Events, by what they hold *)

(** [v.k1.k2...], throwing where a read does. *)
Fixpoint path (keys : list jsstring) (v : value) : result value :=
  match keys with
  | [] => inr v
  | k :: keys' => let? w := Get v k in path keys' w
  end.

(** [json.choices[0].finish_reason] and [json.choices[0].delta.content] *)
Definition finish_reason_of (json : value) : result value :=
  path [js "choices"; js "0"; js "finish_reason"] json.
Definition content_of (json : value) : result value :=
  path [js "choices"; js "0"; js "delta"; js "content"] json.

(** A data event whose data field is the JSON text of [json]. *)
Definition parses (event : SseEvent) (json : value) : Prop :=
  match event with
  | ParsedEvent _ data _ => JSON_parse data = inr json
  | ReconnectInterval _ => False
  end.

(** A data event whose data field is not JSON: parsing it throws [e]. *)
Definition malformed (event : SseEvent) (e : JsError) : Prop :=
  match event with
  | ParsedEvent _ data _ => JSON_parse data = inl e
  | ReconnectInterval _ => False
  end.

(** A data event with a null (or absent) finish_reason whose
    [choices[0].delta.content] reads as [v]. *)
Definition carries (event : SseEvent) (v : value) : Prop :=
  exists json fr,
    parses event json /\ finish_reason_of json = inr fr /\
    nullish fr = true /\ content_of json = inr v.

(** A data event with a non-null finish_reason. *)
Definition finishes (event : SseEvent) : Prop :=
  exists json fr,
    parses event json /\ finish_reason_of json = inr fr /\
    nullish fr = false.

(** An event that leaves the stream open, with the chunks it adds: a
    reconnection interval adds none, a content event the encoding of its
    content, when the encoder returns one. *)
Inductive passes : SseEvent -> list chunk -> Prop :=
| passes_interval (n : N) : passes (ReconnectInterval n) []
| passes_content (event : SseEvent) (v : value) (c : chunk) :
    carries event v -> encode v = inr c -> passes event [c].

(** An event that is not a data event. *)
Definition is_interval (event : SseEvent) : Prop :=
  match event with
  | ReconnectInterval _ => True
  | ParsedEvent _ _ _ => False
  end.

(** The shape the callback can read: [choices[0]] is there, and it has a
    non-null finish_reason or a delta whose content can be read. *)
Definition exposes (json : value) : Prop :=
  exists choice,
    path [js "choices"; js "0"] json = inr choice /\
    nullish choice = false /\
    ((exists fr, Get choice (js "finish_reason") = inr fr /\
                 nullish fr = false) \/
     (exists delta, Get choice (js "delta") = inr delta /\
                    nullish delta = false)).

(** What the callback handles without a throw on an open stream: the
    first choice is there, and it has a non-null finish_reason, or a delta
    with a content that the encoder converts. *)
Definition accepted (json : value) : Prop :=
  exists choice,
    path [js "choices"; js "0"] json = inr choice /\
    nullish choice = false /\
    ((exists fr, Get choice (js "finish_reason") = inr fr /\
                 nullish fr = false) \/
     (exists delta content,
         Get choice (js "delta") = inr delta /\
         nullish delta = false /\
         Get delta (js "content") = inr content /\
         converts content = true)).

(** *** What the callback does with an event *)

Inductive Verdict : Type :=
| Closes
| Enqueues (c : chunk)
| Throws (e : JsError)
| Ignored.

(** The event as the try block sees it, up to its call of the controller. *)
Definition verdict (event : SseEvent) : Verdict :=
  match event with
  | ReconnectInterval _ => Ignored
  | ParsedEvent _ data _ =>
      match JSON_parse data with
      | inl e => Throws e
      | inr json =>
          match finish_reason_of json with
          | inl e => Throws e
          | inr fr =>
              if nullish fr then
                match content_of json with
                | inl e => Throws e
                | inr v =>
                    match encode v with
                    | inl e => Throws e
                    | inr c => Enqueues c
                    end
                end
              else Closes
          end
      end
  end.

Definition perform (v : Verdict) : M unit :=
  match v with
  | Closes => try_catch controller_close controller_error
  | Enqueues c => try_catch (controller_enqueue c) controller_error
  | Throws e => controller_error e
  | Ignored => ret tt
  end.

(** *** States of the stream *)

(** Open: readable and not closing; [cs] is what has been enqueued, of
    which the reader has a part, and reads wait only on an empty queue. *)
Definition open_with (cs : list chunk) (s : ReadableStream) : Prop :=
  state s = readable /\ closeRequested s = false /\
  (readRequests s = 0 \/ queue s = []) /\
  received s ++ queue s = cs.

(** Closing or closed: the reader has or will get exactly [cs]. *)
Definition closing_with (cs : list chunk) (s : ReadableStream) : Prop :=
  closeRequested s = true /\ received s ++ queue s = cs /\
  ((state s = closed /\ queue s = []) \/
   (state s = readable /\ queue s <> [])).

(** Errored with [e], the reader having got [got] before. *)
Definition failed_with (e : JsError) (got : list chunk)
    (s : ReadableStream) : Prop :=
  state s = errored e /\ received s = got.

(** After the close was asked for: closing, or errored since, the reader
    holding a part of [cs] either way. *)
Definition after_close (cs : list chunk) (s : ReadableStream) : Prop :=
  closing_with cs s \/
  exists e got rest, failed_with e got s /\ got ++ rest = cs.

(** The reads the reader has issued on an open stream. *)
Definition asked (s : ReadableStream) : nat :=
  length (received s) + readRequests s.

(** *** Basic facts *)

Lemma str_eqb_refl (a : jsstring) : str_eqb a a = true.
Proof.
  induction a as [|x a IH]; simpl; [reflexivity|].
  now rewrite N.eqb_refl, IH.
Qed.

Lemma str_eqb_eq (a b : jsstring) : str_eqb a b = true <-> a = b.
Proof.
  split; [|intros ->; apply str_eqb_refl].
  revert b; induction a as [|x a IH]; intros [|y b]; simpl; try discriminate;
    [reflexivity|].
  intros H; apply andb_true_iff in H as [Hx Hab].
  apply N.eqb_eq in Hx; subst; f_equal; auto.
Qed.

Lemma Get_nullish (b : value) (k : jsstring) :
  nullish b = true -> Get b k = inl (TypeError (ReadOfNullish k)).
Proof. destruct b; simpl; intros H; try discriminate; reflexivity. Qed.

Lemma Get_total (b : value) (k : jsstring) :
  nullish b = false -> exists v, Get b k = inr v.
Proof.
  destruct b; simpl; intros H; try discriminate; eauto;
    destruct (str_eqb k (js "length")); eauto;
    destruct (array_index k); eauto.
Qed.

Lemma Get_throws (b : value) (k : jsstring) (e : JsError) :
  Get b k = inl e -> nullish b = true /\ e = TypeError (ReadOfNullish k).
Proof.
  destruct (nullish b) eqn:Hb.
  - rewrite (Get_nullish _ _ Hb); intros [= <-]; auto.
  - destruct (Get_total b k Hb) as [v ->]; discriminate.
Qed.

(** *** The callback, event by event *)

Lemma onParse_perform (event : SseEvent) (s : ReadableStream) :
  onParse event s = perform (verdict event) s.
Proof.
  destruct event as [ev data i|n]; [|reflexivity].
  unfold onParse, verdict, finish_reason_of, content_of, path.
  unfold try_catch, bind, lift.
  destruct (JSON_parse data) as [e|json]; [reflexivity|].
  cbn [bind_result].
  destruct (Get json (js "choices")) as [e|choices]; [reflexivity|].
  cbn [bind_result].
  destruct (Get choices (js "0")) as [e|choice]; [reflexivity|].
  cbn [bind_result].
  destruct (Get choice (js "finish_reason")) as [e|fr]; [reflexivity|].
  cbn [bind_result].
  destruct (nullish fr); cbn [negb]; [|reflexivity].
  destruct (Get choice (js "delta")) as [e|delta]; [reflexivity|].
  cbn [bind_result].
  destruct (Get delta (js "content")) as [e|v]; [reflexivity|].
  cbn [bind_result].
  destruct (encode v) as [e|c]; reflexivity.
Qed.

Lemma verdict_carries (event : SseEvent) (v : value) (c : chunk) :
  carries event v -> encode v = inr c -> verdict event = Enqueues c.
Proof.
  intros (json & fr & Hp & Hf & Hn & Hc) He.
  destruct event as [ev data i|n]; [|contradiction].
  simpl in Hp. unfold verdict. now rewrite Hp, Hf, Hn, Hc, He.
Qed.

Lemma verdict_finishes (event : SseEvent) :
  finishes event -> verdict event = Closes.
Proof.
  intros (json & fr & Hp & Hf & Hn).
  destruct event as [ev data i|n]; [|contradiction].
  simpl in Hp. unfold verdict. now rewrite Hp, Hf, Hn.
Qed.

Lemma verdict_malformed (event : SseEvent) (e : JsError) :
  malformed event e -> verdict event = Throws e.
Proof.
  destruct event as [ev data i|n]; [|contradiction].
  simpl. intros H. unfold verdict. now rewrite H.
Qed.

Lemma verdict_passes (event : SseEvent) (cs : list chunk) :
  passes event cs ->
  (verdict event = Ignored /\ cs = []) \/
  (exists c, verdict event = Enqueues c /\ cs = [c]).
Proof.
  intros [n|ev v c H He]; [left; split; reflexivity|].
  right; exists c; split; [|reflexivity].
  now apply (@verdict_carries ev v c).
Qed.

(** *** The stream, step by step *)

Lemma open_new : open_with [] new_ReadableStream.
Proof. repeat split; left; reflexivity. Qed.

Lemma open_read (cs : list chunk) (s : ReadableStream) :
  open_with cs s ->
  open_with cs (reader_read s) /\ asked (reader_read s) = S (asked s).
Proof.
  destruct s as [st q cr rr rc]; unfold open_with, asked, reader_read; simpl.
  intros (-> & -> & Hrq & <-).
  destruct q as [|c q]; simpl.
  - repeat split; auto; lia.
  - destruct Hrq as [-> |Hq]; [|discriminate].
    rewrite <- app_assoc, length_app; simpl.
    repeat split; auto; lia.
Qed.

Lemma open_reads (n : nat) (cs : list chunk) (s : ReadableStream) :
  open_with cs s ->
  open_with cs (Nat.iter n reader_read s) /\
  asked (Nat.iter n reader_read s) = asked s + n.
Proof.
  intros H; induction n as [|n [IHo IHa]]; simpl.
  - split; [assumption|lia].
  - destruct (open_read IHo) as [Ho Ha]. split; [assumption|lia].
Qed.

Lemma open_enqueue (c : chunk) (cs : list chunk) (s : ReadableStream) :
  open_with cs s ->
  open_with (cs ++ [c]) (snd (perform (Enqueues c) s)) /\
  asked (snd (perform (Enqueues c) s)) = asked s.
Proof.
  destruct s as [st q cr rr rc]; unfold open_with, asked; simpl.
  intros (-> & -> & Hrq & <-).
  unfold try_catch, controller_enqueue, CanCloseOrEnqueue; simpl.
  destruct rr as [|rr]; simpl.
  - rewrite app_assoc. repeat split; auto.
  - destruct Hrq as [Hr| ->]; [discriminate|].
    rewrite !app_nil_r, length_app; simpl.
    repeat split; auto; lia.
Qed.

Lemma open_passes (event : SseEvent) (added cs : list chunk)
    (s : ReadableStream) :
  passes event added -> open_with cs s ->
  open_with (cs ++ added) (snd (onParse event s)) /\
  asked (snd (onParse event s)) = asked s.
Proof.
  intros Hp Ho. rewrite onParse_perform.
  destruct (verdict_passes Hp) as [[-> ->]|(c & -> & ->)].
  - simpl. rewrite app_nil_r. auto.
  - now apply open_enqueue.
Qed.

Lemma open_start (events : list SseEvent) (added : list (list chunk)) :
  Forall2 passes events added ->
  forall (reads : list nat) (cs : list chunk) (s : ReadableStream),
    open_with cs s ->
    open_with (cs ++ concat added) (start events reads s) /\
    asked (start events reads s)
    = asked s + list_sum (firstn (length events) reads).
Proof.
  induction 1 as [|event a events added Hp _ IH]; intros reads cs s Ho.
  - simpl. rewrite app_nil_r. split; [assumption|lia].
  - cbn [start concat length].
    destruct (open_reads (hd 0 reads) Ho) as [Ho1 Ha1].
    destruct (open_passes Hp Ho1) as [Ho2 Ha2].
    destruct (IH (tl reads) _ _ Ho2) as [Ho3 Ha3].
    rewrite app_assoc. split; [assumption|].
    rewrite Ha3, Ha2, Ha1.
    destruct reads as [|r reads]; simpl; [rewrite firstn_nil; simpl|]; lia.
Qed.

Lemma open_close (cs : list chunk) (s : ReadableStream) :
  open_with cs s ->
  closing_with cs (snd (perform Closes s)) /\
  (queue s = [] -> state (snd (perform Closes s)) = closed).
Proof.
  destruct s as [st q cr rr rc]; unfold open_with, closing_with; simpl.
  intros (-> & -> & Hrq & <-).
  unfold try_catch, controller_close, CanCloseOrEnqueue; simpl.
  destruct q as [|c q]; simpl.
  - repeat split; auto.
  - repeat split; auto; [right; split; [reflexivity|discriminate]|].
    discriminate.
Qed.

Lemma open_throw (e : JsError) (cs : list chunk) (s : ReadableStream) :
  open_with cs s ->
  failed_with e (received s) (snd (perform (Throws e) s)).
Proof.
  destruct s as [st q cr rr rc]; unfold open_with, failed_with; simpl.
  intros (-> & -> & Hrq & <-).
  unfold controller_error; simpl. auto.
Qed.

(** Once closed or errored, nothing moves the stream. *)
Lemma settled_read (s : ReadableStream) :
  state s <> readable -> reader_read s = s.
Proof.
  unfold reader_read. destruct (state s); [congruence|reflexivity..].
Qed.

Lemma settled_reads (n : nat) (s : ReadableStream) :
  state s <> readable -> Nat.iter n reader_read s = s.
Proof.
  intros H; induction n as [|n IH]; simpl; [reflexivity|].
  rewrite IH. now apply settled_read.
Qed.

Lemma settled_perform (v : Verdict) (s : ReadableStream) :
  state s <> readable -> snd (perform v s) = s.
Proof.
  intros H. destruct v; simpl; unfold try_catch, controller_close,
    controller_enqueue, controller_error, CanCloseOrEnqueue;
    destruct (state s) eqn:Hs; try congruence;
    rewrite ?andb_false_r; simpl; rewrite ?Hs; reflexivity.
Qed.

Lemma settled_start (events : list SseEvent) :
  forall (reads : list nat) (s : ReadableStream),
    state s <> readable -> start events reads s = s.
Proof.
  induction events as [|event events IH]; intros reads s H; simpl;
    [reflexivity|].
  rewrite settled_reads by assumption.
  rewrite onParse_perform, settled_perform by assumption.
  now apply IH.
Qed.

Lemma closing_read (cs : list chunk) (s : ReadableStream) :
  closing_with cs s -> closing_with cs (reader_read s).
Proof.
  destruct s as [st q cr rr rc]; unfold closing_with; simpl.
  intros (-> & <- & [[-> ->]|[-> Hq]]).
  - unfold reader_read; simpl. auto.
  - unfold reader_read; simpl.
    destruct q as [|c q]; [congruence|]. simpl.
    rewrite <- app_assoc. simpl.
    repeat split; auto.
    destruct q; [left; split; reflexivity|].
    right; split; [reflexivity|discriminate].
Qed.

Lemma closing_reads (n : nat) (cs : list chunk) (s : ReadableStream) :
  closing_with cs s -> closing_with cs (Nat.iter n reader_read s).
Proof.
  intros H; induction n as [|n IH]; simpl; [assumption|].
  now apply closing_read.
Qed.

Lemma failed_settled (e : JsError) (got : list chunk) (s : ReadableStream) :
  failed_with e got s -> state s <> readable.
Proof. intros [H _]. rewrite H. discriminate. Qed.

Lemma closing_perform (v : Verdict) (cs : list chunk) (s : ReadableStream) :
  closing_with cs s -> after_close cs (snd (perform v s)).
Proof.
  intros H. pose proof H as (Hc & Hcs & [[Hs _]|[Hs Hq]]).
  - rewrite settled_perform by (rewrite Hs; discriminate). now left.
  - destruct s as [st q cr rr rc]; simpl in *; subst.
    destruct v; simpl; unfold try_catch, controller_close,
      controller_enqueue, controller_error, CanCloseOrEnqueue; simpl;
      try (right; eexists _, rc, q; split; [split; reflexivity|reflexivity]).
    now left.
Qed.

Lemma closing_ignored (event : SseEvent) (cs : list chunk)
    (s : ReadableStream) :
  verdict event = Ignored -> closing_with cs s ->
  closing_with cs (snd (onParse event s)).
Proof. intros Hv H. rewrite onParse_perform, Hv. exact H. Qed.

Lemma after_close_start (events : list SseEvent) :
  forall (reads : list nat) (cs : list chunk) (s : ReadableStream),
    after_close cs s -> after_close cs (start events reads s).
Proof.
  induction events as [|event events IH]; intros reads cs s H; simpl;
    [assumption|].
  destruct H as [H|(e & got & rest & Hf & Hr)].
  - apply IH. rewrite onParse_perform.
    apply closing_perform. now apply closing_reads.
  - rewrite settled_start.
    + right. exists e, got, rest.
      rewrite onParse_perform, settled_perform, settled_reads;
        eauto using failed_settled.
      rewrite settled_reads; eauto using failed_settled.
    + rewrite onParse_perform, settled_perform, settled_reads;
        eauto using failed_settled.
      rewrite settled_reads; eauto using failed_settled.
Qed.

(** *** Reading to the end *)

Lemma read_queue (n : nat) :
  forall s : ReadableStream,
    state s = readable -> length (queue s) = n ->
    let s' := Nat.iter n reader_read s in
    received s' = received s ++ queue s /\
    state s' = (if closeRequested s
                then match n with 0 => readable | S _ => closed end
                else readable).
Proof.
  induction n as [|n IH]; intros s Hs Hn.
  - destruct (queue s) eqn:Hq; [|discriminate]. simpl.
    rewrite app_nil_r, Hs. destruct (closeRequested s); auto.
  - cbv zeta. rewrite Nat.iter_succ_r.
    destruct s as [st q cr rr rc]; simpl in *; subst.
    destruct q as [|c q]; [discriminate|]. injection Hn as Hn.
    set (s1 := reader_read _).
    unfold reader_read in s1; simpl in s1; subst s1.
    destruct cr.
    + destruct q as [|c' q].
      * simpl in Hn; subst n. simpl. auto.
      * match goal with |- context [Nat.iter n reader_read ?t] =>
          destruct (IH t eq_refl Hn) as [Hr Hst] end.
        cbn [received queue closeRequested] in Hr, Hst.
        rewrite Hr, Hst, <- app_assoc. simpl.
        subst n. auto.
    + match goal with |- context [Nat.iter n reader_read ?t] =>
        destruct (IH t eq_refl Hn) as [Hr Hst] end.
      cbn [received queue closeRequested] in Hr, Hst.
      rewrite Hr, Hst, <- app_assoc. auto.
Qed.

Lemma read_to_end_open (cs : list chunk) (s : ReadableStream) :
  open_with cs s -> read_to_end s = {| chunks := cs; ending := Pending |}.
Proof.
  intros (Hs & Hc & _ & Hcs). unfold read_to_end.
  destruct (read_queue s Hs eq_refl) as [Hr Hst].
  rewrite Hr, Hst, Hc, Hcs. reflexivity.
Qed.

Lemma read_to_end_closing (cs : list chunk) (s : ReadableStream) :
  closing_with cs s -> read_to_end s = {| chunks := cs; ending := Done |}.
Proof.
  intros (Hc & Hcs & [[Hs Hq]|[Hs Hq]]); unfold read_to_end.
  - rewrite settled_reads by (rewrite Hs; discriminate).
    rewrite Hs, <- Hcs, Hq, app_nil_r. reflexivity.
  - destruct (read_queue s Hs eq_refl) as [Hr Hst].
    rewrite Hr, Hst, Hc, Hcs.
    destruct (queue s); [congruence|reflexivity].
Qed.

Lemma read_to_end_failed (e : JsError) (got : list chunk)
    (s : ReadableStream) :
  failed_with e got s ->
  read_to_end s = {| chunks := got; ending := Failed e |}.
Proof.
  intros [Hs Hr]. unfold read_to_end.
  rewrite settled_reads by (rewrite Hs; discriminate).
  now rewrite Hs, Hr.
Qed.

(** *** Whole bodies *)

Lemma skipn_tl (n : nat) (reads : list nat) :
  skipn n (tl reads) = skipn (S n) reads.
Proof. destruct reads; simpl; [apply skipn_nil|reflexivity]. Qed.

Lemma list_sum_firstn_S (k : nat) :
  forall reads : list nat,
    list_sum (firstn (S k) reads)
    = list_sum (firstn k reads) + hd 0 (skipn k reads).
Proof.
  induction k as [|k IH]; intros [|r reads]; try reflexivity.
  - simpl. lia.
  - rewrite firstn_cons, (firstn_cons k), skipn_cons.
    unfold list_sum in *. cbn [fold_right]. rewrite IH. lia.
Qed.

Lemma start_app (events1 events2 : list SseEvent) :
  forall (reads : list nat) (s : ReadableStream),
    start (events1 ++ events2) reads s
    = start events2 (skipn (length events1) reads) (start events1 reads s).
Proof.
  induction events1 as [|event events1 IH]; intros reads s; [reflexivity|].
  cbn [app start length]. rewrite IH, skipn_tl. reflexivity.
Qed.



Lemma closing_start_ignored (events : list SseEvent) (cs : list chunk) :
  Forall (fun event => verdict event = Ignored) events ->
  forall (reads : list nat) (s : ReadableStream),
    closing_with cs s -> closing_with cs (start events reads s).
Proof.
  induction 1 as [|event events Hv _ IH]; intros reads s Hc; [exact Hc|].
  cbn [start]. apply IH.
  apply closing_ignored; [assumption|]. now apply closing_reads.
Qed.

(** A body of passing events leaves the stream open. *)
Lemma stream_open (events : list SseEvent) (added : list (list chunk))
    (reads : list nat) :
  Forall2 passes events added ->
  stream_of events reads = {| chunks := concat added; ending := Pending |}.
Proof.
  intros H. unfold stream_of.
  destruct (open_start H reads open_new) as [Ho _].
  now apply read_to_end_open.
Qed.

(** The stream when the finishing event has been parsed. *)
Lemma finish_closing (before : list SseEvent) (added : list (list chunk))
    (last : SseEvent) (reads : list nat) :
  Forall2 passes before added -> finishes last ->
  let s := start (before ++ [last]) reads new_ReadableStream in
  closing_with (concat added) s /\
  (length (concat added) <= list_sum (firstn (S (length before)) reads) ->
   state s = closed).
Proof.
  intros Hb Hl s. subst s. rewrite start_app. cbn [start].
  destruct (open_start Hb reads open_new) as [Ho Ha].
  set (s0 := start before reads new_ReadableStream) in *.
  set (n := hd 0 (skipn (length before) reads)).
  destruct (open_reads n Ho) as [Ho1 Ha1].
  rewrite onParse_perform, (verdict_finishes Hl).
  destruct (open_close Ho1) as [Hc Hq]. split; [exact Hc|].
  intros Hlen. apply Hq.
  destruct Ho1 as (_ & _ & Hrq & Hcs).
  assert (Hsum : list_sum (firstn (S (length before)) reads)
                 = list_sum (firstn (length before) reads) + n).
  { subst n. apply list_sum_firstn_S. }
  rewrite Ha in Ha1. unfold asked in Ha1 at 2. simpl in Ha1.
  unfold asked in Ha1. simpl in Hcs.
  rewrite <- Hcs, length_app in Hlen.
  destruct Hrq as [Hr|Hq0]; [|assumption].
  destruct (queue (Nat.iter n reader_read s0)); [reflexivity|].
  rewrite Hsum in Hlen. cbn [length] in Hlen. lia.
Qed.

Lemma finish_ends (before after : list SseEvent)
    (added : list (list chunk)) (last : SseEvent) (reads : list nat) :
  Forall2 passes before added -> finishes last ->
  let out := stream_of (before ++ last :: after) reads in
  (exists rest, chunks out ++ rest = concat added) /\
  (ending out = Done -> chunks out = concat added) /\
  ending out <> Pending /\
  (Forall (fun event => verdict event = Ignored) after ->
   out = {| chunks := concat added; ending := Done |}) /\
  (length (concat added) <= list_sum (firstn (S (length before)) reads) ->
   out = {| chunks := concat added; ending := Done |}).
Proof.
  intros Hb Hl out. subst out. unfold stream_of.
  replace (before ++ last :: after) with ((before ++ [last]) ++ after)
    by (rewrite <- app_assoc; reflexivity).
  rewrite start_app.
  destruct (finish_closing reads Hb Hl) as [Hc Hclosed].
  set (s := start (before ++ [last]) reads new_ReadableStream) in *.
  set (reads' := skipn _ reads).
  assert (Ha : after_close (concat added) (start after reads' s))
    by (apply after_close_start; now left).
  repeat split.
  - destruct Ha as [Ha|(e & got & rest & Hf & Hr)].
    + rewrite (read_to_end_closing Ha). exists []. apply app_nil_r.
    + rewrite (read_to_end_failed Hf). now exists rest.
  - destruct Ha as [Ha|(e & got & rest & Hf & Hr)].
    + now rewrite (read_to_end_closing Ha).
    + rewrite (read_to_end_failed Hf). discriminate.
  - destruct Ha as [Ha|(e & got & rest & Hf & Hr)].
    + rewrite (read_to_end_closing Ha). discriminate.
    + rewrite (read_to_end_failed Hf). discriminate.
  - intros Hi. apply read_to_end_closing.
    now apply closing_start_ignored.
  - intros Hlen. rewrite settled_start
      by (rewrite (Hclosed Hlen); discriminate).
    now apply read_to_end_closing.
Qed.

(** A throwing event on a stream still open fails it for good. *)
Lemma throw_fails (before after : list SseEvent)
    (added : list (list chunk)) (bad : SseEvent) (e : JsError)
    (reads : list nat) :
  Forall2 passes before added -> verdict bad = Throws e ->
  exists got rest,
    stream_of (before ++ bad :: after) reads
    = {| chunks := got; ending := Failed e |} /\
    got ++ rest = concat added.
Proof.
  intros Hb Hv. unfold stream_of. rewrite start_app. cbn [start].
  destruct (open_start Hb reads open_new) as [Ho _].
  set (s0 := start before reads new_ReadableStream) in *.
  set (n := hd 0 (skipn (length before) reads)).
  destruct (open_reads n Ho) as [Ho1 _].
  pose proof (open_throw e Ho1) as Hf.
  rewrite onParse_perform, Hv.
  rewrite settled_start by (eapply failed_settled; exact Hf).
  exists (received (Nat.iter n reader_read s0)),
         (queue (Nat.iter n reader_read s0)).
  split; [now apply read_to_end_failed|].
  now destruct Ho1 as (_ & _ & _ & Hcs).
Qed.

Lemma firstn_length_app (A : Type) (a b : list A) :
  firstn (length a) (a ++ b) = a.
Proof.
  rewrite firstn_app, firstn_all, Nat.sub_diag. simpl. apply app_nil_r.
Qed.

Lemma skipn_length_app (A : Type) (a b : list A) :
  skipn (length a) (a ++ b) = b.
Proof. induction a; simpl; auto. Qed.

Lemma firstn_add (A : Type) (n m : nat) :
  forall l : list A, firstn (n + m) l = firstn n l ++ firstn m (skipn n l).
Proof.
  induction n as [|n IH]; intros [|x l]; simpl; try reflexivity.
  - now rewrite firstn_nil.
  - now rewrite IH.
Qed.

(** On an open stream the reader holds as many chunks as it asked for, as
    far as there are. *)
Lemma open_received (cs : list chunk) (s : ReadableStream) :
  open_with cs s -> received s = firstn (asked s) cs.
Proof.
  intros (_ & _ & [Hr|Hq] & <-); unfold asked.
  - rewrite Hr, Nat.add_0_r. symmetry. apply firstn_length_app.
  - rewrite Hq, app_nil_r. symmetry. apply firstn_all2. lia.
Qed.

(** The same, with the chunks the reader has got: those it had asked
    for by then. *)
Lemma throw_fails_exact (before after : list SseEvent)
    (added : list (list chunk)) (bad : SseEvent) (e : JsError)
    (reads : list nat) :
  Forall2 passes before added -> verdict bad = Throws e ->
  stream_of (before ++ bad :: after) reads
  = {| chunks := firstn (list_sum (firstn (S (length before)) reads))
                        (concat added);
       ending := Failed e |}.
Proof.
  intros Hb Hv. unfold stream_of. rewrite start_app. cbn [start].
  destruct (open_start Hb reads open_new) as [Ho Ha].
  set (s0 := start before reads new_ReadableStream) in *.
  set (n := hd 0 (skipn (length before) reads)).
  destruct (open_reads n Ho) as [Ho1 Ha1].
  pose proof (open_throw e Ho1) as Hf.
  rewrite onParse_perform, Hv.
  rewrite settled_start by (eapply failed_settled; exact Hf).
  rewrite (read_to_end_failed Hf). f_equal.
  rewrite (open_received Ho1), Ha1, Ha, list_sum_firstn_S. reflexivity.
Qed.

Lemma OpenAIStream_ok (model : OpenAIModel) (systemPrompt : jsstring)
    (temperature : number) (key : jsstring) (messages : list Message)
    (res : Response.t) :
  fetch (request model systemPrompt temperature key messages) = inr res ->
  Response.status res = 200%Z ->
  OpenAIStream model systemPrompt temperature key messages
  = inr (stream_of (Response.body res)).
Proof.
  intros Hf Hs. unfold OpenAIStream. rewrite Hf. cbn [bind_result].
  now rewrite Hs.
Qed.

(** *** The request *)

(** C7. Whatever model and temperature the caller gives, the body sent is
    the JSON text of an object whose max_tokens is 4000, whose temperature
    is 0, whose stream is true and whose model is 'gpt-3.5-turbo-16k'. *)
Theorem body_fixes_limits_and_model (model : OpenAIModel)
    (systemPrompt : jsstring) (temperature : number) (key : jsstring)
    (messages : list Message) :
  let sent := request_json model messages in
  Request.body (request model systemPrompt temperature key messages)
  = JSON_stringify sent /\
  Get sent (js "max_tokens") = inr (VNumber (js "4000")) /\
  Get sent (js "temperature") = inr (VNumber (js "0")) /\
  Get sent (js "stream") = inr (VBool true) /\
  Get sent (js "model") = inr (VString (js "gpt-3.5-turbo-16k")).
Proof.
  cbv zeta. split; [reflexivity|].
  unfold request_json.
  destruct (str_eqb OPENAI_API_TYPE (js "openai"));
    repeat split; reflexivity.
Qed.

(** C8. The messages array of the body is the system message, whose
    content is the fixed text of the source, followed by the caller's
    messages, unchanged and in their order. *)
Theorem messages_are_system_then_callers (model : OpenAIModel)
    (systemPrompt : jsstring) (temperature : number) (key : jsstring)
    (messages : list Message) :
  let sent := request_json model messages in
  Request.body (request model systemPrompt temperature key messages)
  = JSON_stringify sent /\
  Get sent (js "messages")
  = inr (VArray
           (VObject [(js "role", VString (js "system"));
                     (js "content", VString system_content)]
            :: map Message_value messages)).
Proof.
  cbv zeta. split; [reflexivity|].
  unfold request_json.
  destruct (str_eqb OPENAI_API_TYPE (js "openai")); reflexivity.
Qed.


(** C9. Two calls that differ only in systemPrompt send the same request
    and, the network answering it the same way, give the same result:
    the same error, or the same stream. *)
Theorem systemPrompt_is_unused (model : OpenAIModel)
    (systemPrompt1 systemPrompt2 : jsstring) (temperature : number)
    (key : jsstring) (messages : list Message) :
  request model systemPrompt1 temperature key messages
  = request model systemPrompt2 temperature key messages /\
  OpenAIStream model systemPrompt1 temperature key messages
  = OpenAIStream model systemPrompt2 temperature key messages.
Proof. split; reflexivity. Qed.

(** *** Responses other than 200 *)

(** C2. A response whose status is not 200 and whose JSON body holds an
    error object with message m, type t, param p and code c makes the call
    throw an OpenAIError with exactly these four fields; the call returns
    no stream. *)
Theorem upstream_error_becomes_OpenAIError (model : OpenAIModel)
    (systemPrompt : jsstring) (temperature : number) (key : jsstring)
    (messages : list Message) (res : Response.t) (result : value)
    (error : props) (m : jsstring) (t p c : value) :
  fetch (request model systemPrompt temperature key messages) = inr res ->
  Response.status res <> 200%Z ->
  Response.json res = inr result ->
  Get result (js "error") = inr (VObject error) ->
  own error (js "message") = VString m ->
  own error (js "type") = t ->
  own error (js "param") = p ->
  own error (js "code") = c ->
  OpenAIStream model systemPrompt temperature key messages
  = inl (OpenAIError m t p c).
Proof.
  intros Hf Hs Hj He Hm Ht Hp Hc. unfold OpenAIStream.
  rewrite Hf. cbn [bind_result].
  apply Z.eqb_neq in Hs. rewrite Hs. cbn [negb].
  rewrite Hj. cbn [bind_result]. rewrite He. cbn [bind_result ToBoolean Get].
  rewrite Hm, Ht, Hp, Hc. reflexivity.
Qed.

(** What the call throws for a JSON object without error and value
    members: the text of the object's own statusText member, not the
    status text of the response. *)
Lemma generic_error_message (model : OpenAIModel)
    (systemPrompt : jsstring) (temperature : number) (key : jsstring)
    (messages : list Message) (res : Response.t) (o : props) :
  fetch (request model systemPrompt temperature key messages) = inr res ->
  Response.status res <> 200%Z ->
  Response.json res = inr (VObject o) ->
  own o (js "error") = VUndefined ->
  own o (js "value") = VUndefined ->
  converts (own o (js "statusText")) = true ->
  OpenAIStream model systemPrompt temperature key messages
  = inl (Error (js "OpenAI API returned an error: "
                  ++ ToString (own o (js "statusText")))).
Proof.
  intros Hf Hs Hj He Hv Hc. unfold OpenAIStream.
  rewrite Hf. cbn [bind_result].
  apply Z.eqb_neq in Hs. rewrite Hs. cbn [negb].
  rewrite Hj. cbn [bind_result Get]. rewrite He.
  cbn [bind_result ToBoolean nullish Get]. rewrite Hv.
  cbn [decode bind_result ToBoolean]. unfold ToStringOrThrow.
  rewrite Hc. reflexivity.
Qed.

(** *** The stream of a 200 response *)


(** C4 (as amended). For a 200 response, a data event whose data field is
    not JSON and that comes while the stream is open (the events before it
    are reconnection intervals or data events with a null finish_reason
    and a choices[0].delta.content that the encoder converts) makes the
    stream fail with the error of the parse: the reader gets the chunks it
    had asked for by then, a part of what the earlier events enqueued,
    then the failure; what was enqueued and not yet asked for is dropped,
    and nothing of that event or of any later one is emitted. *)
Theorem malformed_event_fails_open_stream (model : OpenAIModel)
    (systemPrompt : jsstring) (temperature : number) (key : jsstring)
    (messages : list Message) (res : Response.t)
    (before after : list SseEvent) (added : list (list chunk))
    (bad : SseEvent) (e : JsError) :
  fetch (request model systemPrompt temperature key messages) = inr res ->
  Response.status res = 200%Z ->
  Response.body res = before ++ bad :: after ->
  Forall2 passes before added ->
  malformed bad e ->
  exists stream,
    OpenAIStream model systemPrompt temperature key messages = inr stream /\
    forall reads,
      stream reads
      = {| chunks := firstn (list_sum (firstn (S (length before)) reads))
                            (concat added);
           ending := Failed e |} /\
      exists rest, chunks (stream reads) ++ rest = concat added.
Proof.
  intros Hf Hs Hb Hp Hm.
  exists (stream_of (Response.body res)).
  split; [now apply OpenAIStream_ok|].
  intros reads. rewrite Hb.
  rewrite (@throw_fails_exact before after added bad e reads Hp
             (@verdict_malformed bad e Hm)).
  split; [reflexivity|]. cbn [chunks].
  eexists. apply firstn_skipn.
Qed.

Lemma verdict_interval (event : SseEvent) :
  is_interval event -> verdict event = Ignored.
Proof. destruct event; [contradiction|reflexivity]. Qed.

(** C5 (as amended). For a 200 response in which the events before the
    first data event with a non-null finish_reason are reconnection
    intervals or data events with a choices[0].delta.content that the
    encoder converts, that event enqueues nothing and asks for the close,
    and no later event adds a byte: whatever follows and whenever the
    reader reads, it gets a part of what the earlier events enqueued and
    then the end of the stream or a failure, and all of it when the stream
    ends.  The stream does end, after all of it, when no data event
    follows or when the reader had by then asked for as many chunks as
    were enqueued. *)
Theorem finish_reason_closes_without_bytes (model : OpenAIModel)
    (systemPrompt : jsstring) (temperature : number) (key : jsstring)
    (messages : list Message) (res : Response.t)
    (before after : list SseEvent) (added : list (list chunk))
    (last : SseEvent) :
  fetch (request model systemPrompt temperature key messages) = inr res ->
  Response.status res = 200%Z ->
  Response.body res = before ++ last :: after ->
  Forall2 passes before added ->
  finishes last ->
  exists stream,
    OpenAIStream model systemPrompt temperature key messages = inr stream /\
    forall reads,
      (exists rest, chunks (stream reads) ++ rest = concat added) /\
      (ending (stream reads) = Done ->
       chunks (stream reads) = concat added) /\
      ending (stream reads) <> Pending /\
      (Forall is_interval after ->
       stream reads = {| chunks := concat added; ending := Done |}) /\
      (length (concat added)
       <= list_sum (firstn (S (length before)) reads) ->
       stream reads = {| chunks := concat added; ending := Done |}).
Proof.
  intros Hf Hs Hb Hp Hl.
  exists (stream_of (Response.body res)).
  split; [now apply OpenAIStream_ok|].
  intros reads. rewrite Hb.
  destruct (finish_ends after reads Hp Hl) as (H1 & H2 & H3 & H4 & H5).
  repeat split; try assumption.
  intros Hi. apply H4.
  eapply Forall_impl; [|exact Hi]. apply verdict_interval.
Qed.

(** *** Events of another shape *)

Lemma Get_ok_base (b v : value) (k : jsstring) :
  Get b k = inr v -> nullish b = false.
Proof.
  intros H. destruct (nullish b) eqn:Hb; [|reflexivity].
  rewrite (Get_nullish _ _ Hb) in H. discriminate.
Qed.

Lemma verdict_hidden (event : SseEvent) (json : value) :
  parses event json -> ~ exposes json ->
  exists k, verdict event = Throws (TypeError (ReadOfNullish k)).
Proof.
  intros Hp Hne.
  destruct event as [ev data i|n]; [|contradiction].
  simpl in Hp. unfold verdict, finish_reason_of, content_of. rewrite Hp.
  unfold exposes, path in *.
  destruct (Get json (js "choices")) as [e|choices] eqn:E1;
    cbn [bind_result] in *.
  { apply Get_throws in E1 as [_ ->]. eauto. }
  destruct (Get choices (js "0")) as [e|choice] eqn:E2;
    cbn [bind_result] in *.
  { apply Get_throws in E2 as [_ ->]. eauto. }
  destruct (Get choice (js "finish_reason")) as [e|fr] eqn:E3;
    cbn [bind_result].
  { apply Get_throws in E3 as [_ ->]. eauto. }
  pose proof (Get_ok_base _ _ E3) as Hn.
  destruct (nullish fr) eqn:Hnf.
  - destruct (Get choice (js "delta")) as [e|delta] eqn:E4;
      cbn [bind_result].
    { apply Get_throws in E4 as [_ ->]. eauto. }
    destruct (Get delta (js "content")) as [e|v] eqn:E5;
      cbn [bind_result].
    { apply Get_throws in E5 as [_ ->]. eauto. }
    exfalso. apply Hne. exists choice. repeat split; [assumption|].
    right. exists delta. split; [assumption|]. eapply Get_ok_base; eauto.
  - exfalso. apply Hne. exists choice. repeat split; [assumption|].
    left. eauto.
Qed.

Lemma can_close_or_enqueue (s : ReadableStream) :
  CanCloseOrEnqueue s = true ->
  state s = readable /\ closeRequested s = false.
Proof.
  unfold CanCloseOrEnqueue.
  destruct (closeRequested s), (state s); simpl; try discriminate; auto.
Qed.

Lemma accepted_exposes (json : value) : accepted json -> exposes json.
Proof.
  intros (choice & Hpath & Hn & [Hfin|(delta & content & Hd & Hnd & _)]);
    exists choice; repeat split; eauto.
Qed.

Lemma encode_throws (v : value) (e : JsError) :
  encode v = inl e -> converts v = false /\ e = TypeError CannotConvert.
Proof.
  unfold encode, ToStringOrThrow.
  destruct v; try discriminate;
    match goal with
    | |- context [converts ?x] => destruct (converts x)
    end; try discriminate; intros [= <-]; auto.
Qed.

Lemma encode_returns (v : value) (c : chunk) :
  encode v = inr c -> converts v = true.
Proof.
  unfold encode, ToStringOrThrow.
  destruct v; try reflexivity;
    match goal with
    | |- context [converts ?x] => destruct (converts x)
    end; try discriminate; reflexivity.
Qed.

Lemma encode_total (v : value) :
  converts v = true -> exists c, encode v = inr c.
Proof.
  intros H. unfold encode, ToStringOrThrow. rewrite H.
  destruct v; eauto.
Qed.

Lemma verdict_accepted (event : SseEvent) (json : value) :
  parses event json -> accepted json ->
  verdict event = Closes \/ exists c, verdict event = Enqueues c.
Proof.
  intros Hp (choice & Hpath & Hn & Hside).
  destruct event as [ev data i|n]; [|contradiction].
  simpl in Hp. unfold verdict, finish_reason_of, content_of. rewrite Hp.
  unfold path in *.
  destruct (Get json (js "choices")) as [e|choices]; [discriminate|].
  cbn [bind_result] in *.
  destruct (Get choices (js "0")) as [e|choice']; [discriminate|].
  cbn [bind_result] in *. injection Hpath as ->.
  destruct (Get_total choice (js "finish_reason") Hn) as [fr Hfr].
  rewrite Hfr. cbn [bind_result].
  destruct (nullish fr) eqn:Hnf; [|now left].
  destruct Hside as [(fr' & Hfr' & Hnf')|(delta & v & Hd & Hnd & Hv & Hc)];
    [congruence|].
  rewrite Hd. cbn [bind_result]. rewrite Hv. cbn [bind_result].
  destruct (encode_total v Hc) as [c ->].
  right. eexists. reflexivity.
Qed.

Lemma verdict_unconvertible (event : SseEvent) (json : value) :
  parses event json -> exposes json -> ~ accepted json ->
  verdict event = Throws (TypeError CannotConvert).
Proof.
  intros Hp (choice & Hpath & Hn & Hside) Hna.
  destruct event as [ev data i|n]; [|contradiction].
  simpl in Hp. unfold verdict, finish_reason_of, content_of. rewrite Hp.
  unfold accepted, path in *.
  destruct (Get json (js "choices")) as [e|choices]; [discriminate|].
  cbn [bind_result] in *.
  destruct (Get choices (js "0")) as [e|choice']; [discriminate|].
  cbn [bind_result] in *. injection Hpath as ->.
  destruct (Get_total choice (js "finish_reason") Hn) as [fr Hfr].
  rewrite Hfr. cbn [bind_result].
  destruct (nullish fr) eqn:Hnf.
  - destruct Hside as [(fr' & Hfr' & Hnf')|(delta & Hd & Hnd)];
      [congruence|].
    rewrite Hd. cbn [bind_result].
    destruct (Get_total delta (js "content") Hnd) as [v Hv].
    rewrite Hv. cbn [bind_result].
    destruct (encode v) as [e|c] eqn:He.
    + apply encode_throws in He as [_ ->]. reflexivity.
    + exfalso. apply Hna. exists choice. repeat split; [assumption|].
      right. exists delta, v. repeat split; try assumption.
      eapply encode_returns; eassumption.
  - exfalso. apply Hna. exists choice. repeat split; [assumption|].
    left. eauto.
Qed.

Lemma verdict_rejected (event : SseEvent) (json : value) :
  parses event json -> ~ accepted json ->
  exists why, verdict event = Throws (TypeError why).
Proof.
  intros Hp Hna.
  destruct event as [ev data i|n]; [|contradiction].
  simpl in Hp. unfold verdict, finish_reason_of, content_of. rewrite Hp.
  unfold accepted, path in *.
  destruct (Get json (js "choices")) as [e|choices] eqn:E1;
    cbn [bind_result] in *.
  { apply Get_throws in E1 as [_ ->]. eauto. }
  destruct (Get choices (js "0")) as [e|choice] eqn:E2;
    cbn [bind_result] in *.
  { apply Get_throws in E2 as [_ ->]. eauto. }
  destruct (Get choice (js "finish_reason")) as [e|fr] eqn:E3;
    cbn [bind_result].
  { apply Get_throws in E3 as [_ ->]. eauto. }
  pose proof (Get_ok_base _ _ E3) as Hn.
  destruct (nullish fr) eqn:Hnf.
  - destruct (Get choice (js "delta")) as [e|delta] eqn:E4;
      cbn [bind_result].
    { apply Get_throws in E4 as [_ ->]. eauto. }
    destruct (Get delta (js "content")) as [e|v] eqn:E5;
      cbn [bind_result].
    { apply Get_throws in E5 as [_ ->]. eauto. }
    destruct (encode v) as [e|c] eqn:E6.
    { apply encode_throws in E6 as [_ ->]. eauto. }
    exfalso. apply Hna. exists choice. repeat split; [assumption|].
    right. exists delta, v. repeat split; try assumption.
    + eapply Get_ok_base; eauto.
    + eapply encode_returns; eauto.
  - exfalso. apply Hna. exists choice. repeat split; [assumption|].
    left. eauto.
Qed.

(** C10 (as amended). A data event whose data field is JSON of a shape the
    callback cannot read (no choices, an empty choices array, a first
    choice with neither a finish_reason nor a delta) is handled as one
    whose data field is not JSON: the read throws, and the error goes to
    [controller.error], which fails the stream if it is still open.  So is
    one whose content the encoder cannot convert.  On an open stream the
    events that go through are exactly those whose first choice has a
    non-null finish_reason or a delta with a content that the encoder
    converts. *)
Theorem unreadable_shape_fails_like_malformed_json (event : SseEvent)
    (json : value) (s : ReadableStream) :
  parses event json ->
  (~ exposes json ->
   exists k,
     onParse event s = controller_error (TypeError (ReadOfNullish k)) s) /\
  (exposes json -> ~ accepted json ->
   onParse event s = controller_error (TypeError CannotConvert) s) /\
  (forall bad e, malformed bad e -> onParse bad s = controller_error e s) /\
  (CanCloseOrEnqueue s = true ->
   (~ accepted json ->
    exists why,
      state (snd (onParse event s)) = errored (TypeError why)) /\
   (accepted json -> forall e, state (snd (onParse event s)) <> errored e)) /\
  (forall o,
      json = VObject o ->
      own o (js "choices") = VUndefined \/ own o (js "choices") = VArray [] ->
      ~ exposes json) /\
  (forall o c rest,
      json = VObject o ->
      own o (js "choices") = VArray (VObject c :: rest) ->
      nullish (own c (js "finish_reason")) = true ->
      nullish (own c (js "delta")) = true ->
      ~ exposes json).
Proof.
  intros Hp.
  assert (Hhid : ~ exposes json ->
                 exists k, verdict event = Throws (TypeError (ReadOfNullish k)))
    by apply (@verdict_hidden event json Hp).
  split; [|split; [|split; [|split; [|split]]]].
  - intros Hne. destruct (Hhid Hne) as [k Hk].
    exists k. now rewrite onParse_perform, Hk.
  - intros He Hna.
    now rewrite onParse_perform, (@verdict_unconvertible event json Hp He Hna).
  - intros bad e Hm. now rewrite onParse_perform, (@verdict_malformed bad e Hm).
  - intros Hcan. destruct (@can_close_or_enqueue s Hcan) as [Hs Hc]. split.
    + intros Hna.
      destruct (@verdict_rejected event json Hp Hna) as [why Hk].
      exists why.
      rewrite onParse_perform, Hk. simpl.
      unfold controller_error. now rewrite Hs.
    + intros Ha e. rewrite onParse_perform.
      destruct (@verdict_accepted event json Hp Ha) as [->|[c ->]]; simpl;
        unfold try_catch, controller_close, controller_enqueue;
        rewrite Hcan.
      * destruct (queue s); simpl; [discriminate|]. rewrite Hs. discriminate.
      * destruct (readRequests s); simpl; rewrite Hs; discriminate.
  - intros o -> Hch (choice & Hpath & Hn & _).
    unfold path in Hpath. cbn [Get bind_result] in Hpath.
    destruct Hch as [Hch|Hch]; rewrite Hch in Hpath;
      [discriminate|].
    injection Hpath as <-. discriminate.
  - intros o c rest -> Hch Hfr Hd (choice & Hpath & Hn & Hside).
    unfold path in Hpath. cbn [Get bind_result] in Hpath.
    rewrite Hch in Hpath. injection Hpath as <-.
    destruct Hside as [(fr & Hg & Hnf)|(delta & Hg & Hnd)];
      cbn [Get] in Hg; injection Hg as <-; congruence.
Qed.

(** *** More of the request *)

Lemma str_eqb_neq (a b : jsstring) : a <> b -> str_eqb a b = false.
Proof.
  intros H. destruct (str_eqb a b) eqn:E; [|reflexivity].
  apply str_eqb_eq in E. contradiction.
Qed.


(** X2. Under a flavour that is neither openai nor azure the request goes
    to H/v1/chat/completions with Content-Type as its only header: no key
    is sent at all. *)
Theorem unknown_flavour_sends_no_key (model : OpenAIModel)
    (systemPrompt : jsstring) (temperature : number) (key : jsstring)
    (messages : list Message) :
  OPENAI_API_TYPE <> js "openai" -> OPENAI_API_TYPE <> js "azure" ->
  let sent := request model systemPrompt temperature key messages in
  Request.url sent = OPENAI_API_HOST ++ js "/v1/chat/completions" /\
  Request.headers sent
  = VObject [(js "Content-Type", VString (js "application/json"))].
Proof.
  intros Ho Ha. cbv zeta.
  unfold request, request_url, request_headers.
  cbn [Request.url Request.headers].
  rewrite (str_eqb_neq Ho), (str_eqb_neq Ha). split; reflexivity.
Qed.

(** X3. With an empty key from the caller the header carries the key of
    the environment, and with none there either it carries the text
    undefined. *)
Theorem empty_key_falls_back :
  let fallback := match env_OPENAI_API_KEY with
                  | Some k => k
                  | None => js "undefined"
                  end in
  (OPENAI_API_TYPE = js "openai" ->
   Get (request_headers []) (js "Authorization")
   = inr (VString (js "Bearer " ++ fallback))) /\
  (OPENAI_API_TYPE = js "azure" ->
   Get (request_headers []) (js "api-key") = inr (VString fallback)).
Proof.
  cbv zeta. unfold request_headers, key_or_default. split; intros ->.
  - destruct env_OPENAI_API_KEY, OPENAI_ORGANIZATION; reflexivity.
  - destruct env_OPENAI_API_KEY; reflexivity.
Qed.

(** X4. The model and the temperature of the caller have no effect: two
    calls that differ in them (and in systemPrompt) send the same request
    and give the same result. *)
Theorem model_and_temperature_are_unused (model1 model2 : OpenAIModel)
    (systemPrompt1 systemPrompt2 : jsstring)
    (temperature1 temperature2 : number) (key : jsstring)
    (messages : list Message) :
  request model1 systemPrompt1 temperature1 key messages
  = request model2 systemPrompt2 temperature2 key messages /\
  OpenAIStream model1 systemPrompt1 temperature1 key messages
  = OpenAIStream model2 systemPrompt2 temperature2 key messages.
Proof.
  assert (Hj : request_json model1 messages = request_json model2 messages).
  { unfold request_json.
    destruct (str_eqb OPENAI_API_TYPE (js "openai")); reflexivity. }
  assert (Hr : request model1 systemPrompt1 temperature1 key messages
               = request model2 systemPrompt2 temperature2 key messages).
  { unfold request. now rewrite Hj. }
  split; [exact Hr|]. unfold OpenAIStream. now rewrite Hr.
Qed.


(** *** More of the responses other than 200 *)

Lemma truthy_not_nullish (v : value) :
  ToBoolean v = true -> nullish v = false.
Proof. destruct v; simpl; intros H; try discriminate; reflexivity. Qed.

Lemma decode_throws (v : value) (e : JsError) :
  decode v = inl e -> e = TypeError NotABufferSource.
Proof. destruct v; simpl; intros [= <-]; reflexivity. Qed.

(** The branch taken without a truthy error throws an Error or a
    TypeError. *)
Lemma generic_branch (parsed : value) :
  exists e,
    (let? value := (if nullish parsed then inr VUndefined
                    else Get parsed (js "value")) in
     let? decoded := decode value in
     let? detail := (if ToBoolean decoded then inr decoded
                     else Get parsed (js "statusText")) in
     let? shown := ToStringOrThrow detail in
     inl (Error (js "OpenAI API returned an error: " ++ shown)))
    = (inl e : result ByteStream) /\
    ((exists why, e = TypeError why) \/ (exists message, e = Error message)).
Proof.
  destruct (if nullish parsed then _ else _) as [e|v] eqn:Hv;
    cbn [bind_result].
  { destruct (nullish parsed); [discriminate|].
    apply Get_throws in Hv as [_ ->]. eauto. }
  destruct (decode v) as [e|decoded] eqn:Hd; cbn [bind_result].
  { apply decode_throws in Hd as ->. eauto. }
  destruct (if ToBoolean decoded then _ else _) as [e|detail] eqn:Ht;
    cbn [bind_result].
  { destruct (ToBoolean decoded); [discriminate|].
    apply Get_throws in Ht as [_ ->]. eauto. }
  unfold ToStringOrThrow. destruct (converts detail); cbn [bind_result]; eauto.
Qed.

(** X6. Once [fetch] has answered, the call returns a stream exactly when
    the status is 200, and then it is the stream of the body: any other
    status makes the call throw, whatever the body holds. *)
Theorem stream_only_for_status_200 (model : OpenAIModel)
    (systemPrompt : jsstring) (temperature : number) (key : jsstring)
    (messages : list Message) (res : Response.t) :
  fetch (request model systemPrompt temperature key messages) = inr res ->
  (Response.status res = 200%Z ->
   OpenAIStream model systemPrompt temperature key messages
   = inr (stream_of (Response.body res))) /\
  (Response.status res <> 200%Z ->
   exists e,
     OpenAIStream model systemPrompt temperature key messages = inl e).
Proof.
  intros Hf. split; [now apply OpenAIStream_ok|].
  intros Hs. unfold OpenAIStream. rewrite Hf. cbn [bind_result].
  apply Z.eqb_neq in Hs. rewrite Hs. cbn [negb].
  destruct (Response.json res) as [e|result]; cbn [bind_result]; [eauto|].
  destruct (Get result (js "error")) as [e|error]; cbn [bind_result];
    [eauto|].
  destruct (ToBoolean error).
  - destruct (Get error (js "message")); cbn [bind_result]; [eauto|].
    destruct (Get error (js "type")); cbn [bind_result]; [eauto|].
    destruct (Get error (js "param")); cbn [bind_result]; [eauto|].
    destruct (Get error (js "code")); cbn [bind_result]; [eauto|].
    destruct (new_OpenAIError _ _ _ _); cbn [bind_result]; eauto.
  - destruct (generic_branch result) as (e & -> & _). eauto.
Qed.

(** X7. For a response other than 200 with a JSON body, the call throws an
    OpenAIError exactly when the body has an error member that is truthy
    and whose message converts to a text (or is absent): an error that is
    null, false, 0 or the empty text counts as none, and a message that
    does not convert makes the construction throw a TypeError. *)
Theorem OpenAIError_only_for_truthy_error (model : OpenAIModel)
    (systemPrompt : jsstring) (temperature : number) (key : jsstring)
    (messages : list Message) (res : Response.t) (result : value) :
  fetch (request model systemPrompt temperature key messages) = inr res ->
  Response.status res <> 200%Z ->
  Response.json res = inr result ->
  ((exists m t p c,
      OpenAIStream model systemPrompt temperature key messages
      = inl (OpenAIError m t p c)) <->
   (exists error message,
      Get result (js "error") = inr error /\ ToBoolean error = true /\
      Get error (js "message") = inr message /\
      converts message = true)).
Proof.
  intros Hf Hs Hj. unfold OpenAIStream. rewrite Hf. cbn [bind_result].
  apply Z.eqb_neq in Hs. rewrite Hs. cbn [negb].
  rewrite Hj. cbn [bind_result].
  destruct (Get result (js "error")) as [e|error] eqn:He; cbn [bind_result].
  - apply Get_throws in He as [_ ->]. split.
    + intros (m & t & p & c & H). discriminate.
    + intros (error & message & H & _). discriminate.
  - destruct (ToBoolean error) eqn:Ht.
    + pose proof (truthy_not_nullish _ Ht) as Hn.
      destruct (Get_total error (js "message") Hn) as [m Hm].
      destruct (Get_total error (js "type") Hn) as [t ->].
      destruct (Get_total error (js "param") Hn) as [p ->].
      destruct (Get_total error (js "code") Hn) as [c ->].
      rewrite Hm. cbn [bind_result].
      unfold new_OpenAIError, ToStringOrThrow.
      destruct (converts m) eqn:Hc.
      * split; [intros _; eauto 6|].
        intros _. destruct m; cbn [bind_result]; eauto 6.
      * split.
        -- intros (m' & t' & p' & c' & H).
           destruct m; cbn [bind_result] in H; discriminate.
        -- intros (error' & message & [= <-] & _ & Hm' & Hc').
           congruence.
    + destruct (generic_branch result) as (e & -> & Hkind). split.
      * intros (m & t & p & c & [= ->]).
        destruct Hkind as [[why H]|[message H]]; discriminate.
      * intros (error' & message & [= <-] & Ht' & _). congruence.
Qed.

(** X8. Two bodies make the call throw a TypeError in place of the generic
    Error: JSON null, whose error member cannot be read, and a body
    without a truthy error but with a value member, which
    [decoder.decode] refuses. *)
Theorem null_body_and_value_member_throw_TypeError (model : OpenAIModel)
    (systemPrompt : jsstring) (temperature : number) (key : jsstring)
    (messages : list Message) (res : Response.t) :
  fetch (request model systemPrompt temperature key messages) = inr res ->
  Response.status res <> 200%Z ->
  (Response.json res = inr VNull ->
   OpenAIStream model systemPrompt temperature key messages
   = inl (TypeError (ReadOfNullish (js "error")))) /\
  (forall parsed error v,
      Response.json res = inr parsed ->
      Get parsed (js "error") = inr error ->
      ToBoolean error = false ->
      Get parsed (js "value") = inr v ->
      v <> VUndefined ->
      OpenAIStream model systemPrompt temperature key messages
      = inl (TypeError NotABufferSource)).
Proof.
  intros Hf Hs. unfold OpenAIStream. rewrite Hf. cbn [bind_result].
  apply Z.eqb_neq in Hs. rewrite Hs. cbn [negb]. split.
  - intros ->. reflexivity.
  - intros parsed error v -> He Ht Hv Hne. cbn [bind_result].
    rewrite He. cbn [bind_result]. rewrite Ht.
    rewrite (Get_ok_base _ _ He), Hv. cbn [bind_result].
    destruct v; try reflexivity. congruence.
Qed.

(** X9. What [fetch] rejects with, and what [res.json()] rejects with on
    a response other than 200 (a body that is not JSON), is thrown as it
    is: the status of the response goes into no message. *)
Theorem rejections_pass_through (model : OpenAIModel)
    (systemPrompt : jsstring) (temperature : number) (key : jsstring)
    (messages : list Message) (e : JsError) :
  (fetch (request model systemPrompt temperature key messages) = inl e ->
   OpenAIStream model systemPrompt temperature key messages = inl e) /\
  (forall res,
      fetch (request model systemPrompt temperature key messages)
      = inr res ->
      Response.status res <> 200%Z ->
      Response.json res = inl e ->
      OpenAIStream model systemPrompt temperature key messages = inl e).
Proof.
  unfold OpenAIStream. split.
  - intros ->. reflexivity.
  - intros res Hf Hs Hj. rewrite Hf. cbn [bind_result].
    apply Z.eqb_neq in Hs. rewrite Hs. cbn [negb]. now rewrite Hj.
Qed.

(** X10. An error member that is truthy but no object (a text, a number,
    true, an array) gives an OpenAIError with an empty message and
    undefined type, param and code: what the member said is lost. *)
Theorem error_that_is_no_object_loses_its_text (model : OpenAIModel)
    (systemPrompt : jsstring) (temperature : number) (key : jsstring)
    (messages : list Message) (res : Response.t) (parsed error : value) :
  fetch (request model systemPrompt temperature key messages) = inr res ->
  Response.status res <> 200%Z ->
  Response.json res = inr parsed ->
  Get parsed (js "error") = inr error ->
  ToBoolean error = true ->
  (forall o, error <> VObject o) ->
  OpenAIStream model systemPrompt temperature key messages
  = inl (OpenAIError [] VUndefined VUndefined VUndefined).
Proof.
  intros Hf Hs Hj He Ht Ho. unfold OpenAIStream.
  rewrite Hf. cbn [bind_result].
  apply Z.eqb_neq in Hs. rewrite Hs. cbn [negb].
  rewrite Hj. cbn [bind_result]. rewrite He. cbn [bind_result]. rewrite Ht.
  destruct error; try discriminate; try reflexivity.
  exfalso. eapply Ho. reflexivity.
Qed.

(** *** More of the stream *)

Lemma passes_of_verdict (event : SseEvent) :
  match verdict event with
  | Ignored => passes event []
  | Enqueues c => passes event [c]
  | Closes => finishes event
  | Throws _ => True
  end.
Proof.
  destruct event as [ev data i|n]; [|constructor].
  unfold verdict.
  destruct (JSON_parse data) as [e|json] eqn:Hp; [exact I|].
  destruct (finish_reason_of json) as [e|fr] eqn:Hf; [exact I|].
  destruct (nullish fr) eqn:Hn.
  - destruct (content_of json) as [e|v] eqn:Hc; [exact I|].
    destruct (encode v) as [e|c] eqn:He; [exact I|].
    apply (@passes_content _ v c); [|assumption].
    exists json, fr. auto.
  - exists json, fr. auto.
Qed.

(** A body is a run of passing events, whole or up to a first event that
    finishes or throws. *)
Lemma body_split (events : list SseEvent) :
  (exists added, Forall2 passes events added) \/
  (exists before added stop after,
      events = before ++ stop :: after /\
      Forall2 passes before added /\
      (finishes stop \/ exists e, verdict stop = Throws e)).
Proof.
  induction events as [|event events IH].
  - left. exists []. constructor.
  - pose proof (passes_of_verdict event) as Hv.
    destruct (verdict event) as [|c|e|] eqn:E.
    + right. exists [], [], event, events.
      repeat split; auto using Forall2_nil.
    + destruct IH as [[added H]|(before & added & stop & after & -> & H & Hs)].
      * left. exists ([c] :: added). now constructor.
      * right. exists (event :: before), ([c] :: added), stop, after.
        repeat split; auto using Forall2_cons.
    + right. exists [], [], event, events.
      repeat split; eauto using Forall2_nil.
    + destruct IH as [[added H]|(before & added & stop & after & -> & H & Hs)].
      * left. exists ([] :: added). now constructor.
      * right. exists (event :: before), ([] :: added), stop, after.
        repeat split; auto using Forall2_cons.
Qed.

(** X11. Whatever the body of a 200 response holds and whenever the
    reader reads, what it gets is a part, from the start and in order, of
    the chunks of the events that pass before the first event that
    finishes or throws: no other byte is ever emitted. *)
Theorem output_is_a_prefix_of_the_leading_chunks
    (events : list SseEvent) (reads : list nat) :
  exists before after added rest,
    events = before ++ after /\
    Forall2 passes before added /\
    chunks (stream_of events reads) ++ rest = concat added.
Proof.
  destruct (body_split events)
    as [[added H]|(before & added & stop & after & -> & H & [Hs|[e Hs]])].
  - exists events, [], added, []. rewrite app_nil_r.
    rewrite (stream_open reads H). repeat split; auto. apply app_nil_r.
  - destruct (finish_ends after reads H Hs) as ((rest & Hr) & _).
    exists before, (stop :: after), added, rest. auto.
  - destruct (@throw_fails before after added stop e reads H Hs) as (got & rest & -> & Hr).
    exists before, (stop :: after), added, rest. auto.
Qed.

(** X12. The adapter never closes the stream on its own.  When every
    event of the body of a 200 response passes (none finishes, none
    throws; the empty body is one such), the reader gets the chunks of all
    of them and is then left waiting: the stream stays open.  And it is
    only then that the reader is left waiting. *)
Theorem stream_is_left_open_without_finish_reason
    (events : list SseEvent) (reads : list nat) :
  (forall added,
      Forall2 passes events added ->
      stream_of events reads
      = {| chunks := concat added; ending := Pending |}) /\
  (ending (stream_of events reads) = Pending ->
   exists added, Forall2 passes events added).
Proof.
  split.
  - intros added H. now apply stream_open.
  - intros Hp.
    destruct (body_split events)
      as [[added H]|(before & added & stop & after & -> & H & [Hs|[e Hs]])].
    + now exists added.
    + destruct (finish_ends after reads H Hs) as (_ & _ & Hn & _).
      contradiction.
    + destruct (@throw_fails before after added stop e reads H Hs)
        as (got & rest & Ho & _).
      rewrite Ho in Hp. discriminate.
Qed.

Lemma verdict_throws (bad : SseEvent) :
  (exists e, malformed bad e) \/
  (exists json, parses bad json /\ ~ accepted json) ->
  exists e', verdict bad = Throws e' /\
             forall e, malformed bad e -> e' = e.
Proof.
  intros [[e He]|(json & Hp & Hna)].
  - exists e. split; [now apply (@verdict_malformed bad e)|].
    intros e' He'. destruct bad; [|contradiction].
    simpl in *. congruence.
  - destruct (@verdict_rejected bad json Hp Hna) as [why Hk].
    exists (TypeError why). split; [assumption|].
    intros e He. destruct bad; [|contradiction].
    simpl in *. congruence.
Qed.

(** X13. When a data event throws on a stream still open (its data field
    is not JSON, or JSON that the callback cannot read or whose content
    the encoder cannot convert), the reader gets exactly the chunks it had
    asked for by then, as far as the earlier events enqueued any, and then
    the failure: a chunk enqueued but not yet asked for is dropped. *)
Theorem failure_keeps_only_the_chunks_asked_for
    (before after : list SseEvent) (added : list (list chunk))
    (bad : SseEvent) (reads : list nat) :
  Forall2 passes before added ->
  (exists e, malformed bad e) \/
  (exists json, parses bad json /\ ~ accepted json) ->
  exists e',
    stream_of (before ++ bad :: after) reads
    = {| chunks := firstn (list_sum (firstn (S (length before)) reads))
                          (concat added);
         ending := Failed e' |} /\
    forall e, malformed bad e -> e' = e.
Proof.
  intros Hb Hbad. destruct (@verdict_throws bad Hbad) as (e' & Hv & He).
  exists e'. split; [|exact He].
  now apply throw_fails_exact.
Qed.

(** Reads on a stream that is closing over unread chunks, short of the
    last one. *)
Lemma closing_unread_reads (k : nat) (s : ReadableStream) :
  state s = readable -> closeRequested s = true ->
  k < length (queue s) ->
  state (Nat.iter k reader_read s) = readable /\
  closeRequested (Nat.iter k reader_read s) = true /\
  received (Nat.iter k reader_read s) = received s ++ firstn k (queue s) /\
  queue (Nat.iter k reader_read s) = skipn k (queue s).
Proof.
  intros Hs Hc. induction k as [|k IH]; intros Hk.
  - simpl. rewrite app_nil_r. auto.
  - destruct IH as (Hs' & Hc' & Hr' & Hq'); [lia|].
    rewrite !Nat.iter_succ. set (t := Nat.iter k reader_read s) in *.
    assert (Hlen : length (skipn k (queue s)) = length (queue s) - k)
      by apply length_skipn.
    unfold reader_read. rewrite Hs', Hq'.
    destruct (skipn k (queue s)) as [|x rest] eqn:Hsk;
      [simpl in Hlen; lia|].
    cbn [state closeRequested received queue]. rewrite Hc', Hr'.
    assert (Hrest : rest = skipn (S k) (queue s)).
    { change (S k) with (1 + k). rewrite <- skipn_skipn, Hsk. reflexivity. }
    assert (Hfirst : firstn (S k) (queue s) = firstn k (queue s) ++ [x]).
    { replace (S k) with (k + 1) by lia.
      rewrite firstn_add, Hsk. reflexivity. }
    rewrite Hfirst, app_assoc.
    destruct rest as [|y rest']; [simpl in Hlen; lia|].
    rewrite <- Hrest. auto.
Qed.

Lemma perform_while_closing (v : Verdict) (s : ReadableStream) :
  state s = readable -> closeRequested s = true -> v <> Ignored ->
  failed_with (match v with
               | Throws e => e
               | _ => TypeError CannotCloseOrEnqueue
               end)
              (received s) (snd (perform v s)).
Proof.
  intros Hs Hc Hv. unfold failed_with.
  destruct v; [| | |congruence]; simpl;
    unfold try_catch, controller_close, controller_enqueue,
      controller_error, CanCloseOrEnqueue;
    rewrite ?Hc, ?Hs; simpl; rewrite ?Hs; auto.
Qed.

(** The stream after the finishing event, when the reader had asked for
    fewer chunks than were enqueued. *)
Lemma finish_unread (before : list SseEvent) (added : list (list chunk))
    (last : SseEvent) (reads : list nat) :
  Forall2 passes before added -> finishes last ->
  list_sum (firstn (S (length before)) reads) < length (concat added) ->
  let s := start (before ++ [last]) reads new_ReadableStream in
  let r := list_sum (firstn (S (length before)) reads) in
  state s = readable /\ closeRequested s = true /\
  received s = firstn r (concat added) /\
  queue s = skipn r (concat added).
Proof.
  intros Hb Hl Hlt s r. subst s r. rewrite start_app. cbn [start].
  destruct (open_start Hb reads open_new) as [Ho Ha].
  set (s0 := start before reads new_ReadableStream) in *.
  set (n := hd 0 (skipn (length before) reads)).
  destruct (open_reads n Ho) as [Ho1 Ha1].
  rewrite onParse_perform, (@verdict_finishes last Hl).
  pose proof (open_received Ho1) as Hrec.
  rewrite Ha1, Ha in Hrec.
  change (asked new_ReadableStream) with 0 in Hrec.
  rewrite list_sum_firstn_S in Hlt |- *.
  set (r := list_sum (firstn (length before) reads) + n) in *.
  simpl in Hrec.
  destruct Ho1 as (Hs & Hc & Hrq & Hcs). simpl in Hcs.
  set (t := Nat.iter n reader_read s0) in *.
  assert (Hlr : length (received t) = r).
  { rewrite Hrec. apply firstn_length_le. lia. }
  assert (Hq : queue t = skipn r (concat added)).
  { rewrite <- Hcs, <- Hlr. symmetry. apply skipn_length_app. }
  assert (Hne : queue t <> []).
  { intros Hq0. rewrite Hq0, app_nil_r in Hcs.
    rewrite Hcs in Hlr. lia. }
  simpl. unfold try_catch, controller_close, CanCloseOrEnqueue.
  rewrite Hc, Hs. simpl.
  destruct (queue t) eqn:Hqt; [congruence|]. simpl.
  auto.
Qed.

(** X14. A data event parsed after the finishing one, while the reader
    has asked for fewer chunks than were enqueued, fails the stream:
    [close] had to wait for the queue, the event throws (its own error,
    or the TypeError of a controller asked to close or enqueue again),
    and [controller.error] drops what is unread.  The reader gets the
    chunks it had asked for, then the failure, in place of the end.  The
    events before the finishing one are events that pass. *)
Theorem data_event_after_finish_drops_unread_chunks
    (before after : list SseEvent) (added : list (list chunk))
    (last next : SseEvent) (reads : list nat) :
  Forall2 passes before added ->
  finishes last ->
  ~ is_interval next ->
  list_sum (firstn (S (S (length before))) reads) < length (concat added) ->
  exists e,
    stream_of (before ++ last :: next :: after) reads
    = {| chunks := firstn (list_sum (firstn (S (S (length before))) reads))
                          (concat added);
         ending := Failed e |} /\
    (forall e', malformed next e' -> e = e') /\
    (finishes next \/ (exists c, passes next [c]) ->
     e = TypeError CannotCloseOrEnqueue).
Proof.
  intros Hb Hl Hni Hlt.
  rewrite list_sum_firstn_S in Hlt.
  set (r1 := list_sum (firstn (S (length before)) reads)) in *.
  set (k := hd 0 (skipn (S (length before)) reads)) in *.
  destruct (@finish_unread before added last reads Hb Hl) as (Hs & Hc & Hr & Hq);
    [fold r1; lia|].
  fold r1 in Hr, Hq.
  set (s1 := start (before ++ [last]) reads new_ReadableStream) in *.
  assert (Hk : k < length (queue s1)).
  { rewrite Hq, length_skipn. lia. }
  destruct (@closing_unread_reads k s1 Hs Hc Hk) as (Hs2 & Hc2 & Hr2 & Hq2).
  assert (Hv : verdict next <> Ignored).
  { destruct next as [ev data i|n]; [|exfalso; apply Hni; exact I].
    unfold verdict.
    destruct (JSON_parse data); [discriminate|].
    destruct (finish_reason_of v); [discriminate|].
    destruct (nullish v0); [|discriminate].
    destruct (content_of v); [discriminate|].
    destruct (encode v1); discriminate. }
  pose proof (@perform_while_closing (verdict next) _ Hs2 Hc2 Hv) as Hf.
  eexists. split; [|split].
  - unfold stream_of.
    replace (before ++ last :: next :: after)
      with ((before ++ [last]) ++ next :: after)
      by (rewrite <- app_assoc; reflexivity).
    rewrite start_app. cbn [start]. fold s1.
    rewrite length_app, Nat.add_comm. cbn [length Nat.add]. fold k.
    rewrite onParse_perform.
    rewrite settled_start by (eapply failed_settled; exact Hf).
    rewrite (read_to_end_failed Hf). f_equal.
    rewrite list_sum_firstn_S. fold r1 k.
    rewrite Hr2, Hr, Hq. symmetry. apply firstn_add.
  - intros e' He'. now rewrite (@verdict_malformed next e' He').
  - intros [Hfin|[c Hpass]].
    + now rewrite (@verdict_finishes next Hfin).
    + destruct (@verdict_passes next [c] Hpass)
        as [[_ Hnil]|(c' & -> & _)]; [discriminate|reflexivity].
Qed.

(** *** Fragments without unpaired surrogates *)





(** X16. A content that is null is not skipped: the event adds the four
    bytes of the text null to the stream.  A content that is absent adds
    an empty chunk. *)
Theorem null_content_is_emitted_as_text (event last : SseEvent)
    (v : value) (reads : list nat) :
  carries event v -> nullish v = true -> finishes last ->
  stream_of [event; last] reads
  = {| chunks := [match v with
                  | VNull => utf8 (js "null")
                  | _ => []
                  end];
       ending := Done |}.
Proof.
  intros Hc Hn Hl.
  assert (He : encode v = inr match v with
                              | VNull => utf8 (js "null")
                              | _ => []
                              end)
    by (destruct v; try discriminate; reflexivity).
  assert (Hp : Forall2 passes [event]
                 [[match v with VNull => utf8 (js "null") | _ => [] end]])
    by (constructor; [exact (passes_content Hc He)|constructor]).
  destruct (finish_ends [] reads Hp Hl) as (_ & _ & _ & Hend & _).
  change [event; last] with ([event] ++ [last]).
  now rewrite Hend by constructor.
Qed.

End Adapter.

(** ** The adapter on the sample payloads *)

Lemma content_a_carries : carries sample_parse content_a (VString (js "a")).
Proof.
  exists (delta_of (VString (js "a"))), VNull.
  repeat split; vm_compute; reflexivity.
Defined.

Lemma content_b_carries : carries sample_parse content_b (VString (js "b")).
Proof.
  exists (delta_of (VString (js "b"))), VNull.
  repeat split; vm_compute; reflexivity.
Defined.



Lemma finish_stop_finishes : finishes sample_parse finish_stop.
Proof.
  eexists _, (VString (js "stop")).
  repeat split; vm_compute; reflexivity.
Defined.

Lemma done_marker_malformed :
  malformed sample_parse done_marker (SyntaxError (js "Unexpected token in JSON")).
Proof. vm_compute. reflexivity. Defined.



(** C4, an instance: the end marker after one fragment, on an open
    stream. *)
Lemma malformed_event_fails_open_stream_witness :
  Forall2 (passes sample_parse) [content_a] [[utf8 (js "a")]] /\
  malformed sample_parse done_marker
            (SyntaxError (js "Unexpected token in JSON")) /\
  exists stream,
    OpenAIStream sample_host sample_flavour sample_version [] [] None
      sample_parse
      (answers (ok_response ([content_a] ++ done_marker :: [content_b])))
      sample_model sample_prompt sample_temperature sample_key sample_messages
    = inr stream /\
    forall reads,
      stream reads
      = {| chunks := firstn (list_sum (firstn 2 reads)) [utf8 (js "a")];
           ending := Failed (SyntaxError (js "Unexpected token in JSON")) |} /\
      exists rest, chunks (stream reads) ++ rest = [utf8 (js "a")].
Proof.
  assert (Hp : Forall2 (passes sample_parse) [content_a] [[utf8 (js "a")]])
    by (constructor;
        [exact (passes_content content_a_carries eq_refl)|constructor]).
  split; [exact Hp|]. split; [exact done_marker_malformed|].
  exact (@malformed_event_fails_open_stream
           sample_host sample_flavour sample_version [] [] None sample_parse
           (answers (ok_response ([content_a] ++ done_marker :: [content_b])))
           sample_model sample_prompt sample_temperature
           sample_key sample_messages
           (ok_response ([content_a] ++ done_marker :: [content_b]))
           [content_a] [content_b] [[utf8 (js "a")]]
           done_marker (SyntaxError (js "Unexpected token in JSON"))
           eq_refl eq_refl eq_refl Hp done_marker_malformed).
Defined.

(** C4 as first stated fails: the end marker after the finishing event.
    The stream has closed when the marker is parsed, and it ends as any
    other, with no failure. *)
Lemma end_marker_after_finish_is_no_failure :
  finishes sample_parse finish_stop /\
  malformed sample_parse done_marker
            (SyntaxError (js "Unexpected token in JSON")) /\
  exists stream,
    OpenAIStream sample_host sample_flavour sample_version [] [] None
      sample_parse
      (answers (ok_response [finish_stop; done_marker]))
      sample_model sample_prompt sample_temperature sample_key sample_messages
    = inr stream /\
    forall reads, stream reads = {| chunks := []; ending := Done |}.
Proof.
  split; [exact finish_stop_finishes|]. split; [exact done_marker_malformed|].
  eexists. split; [reflexivity|]. intros reads.
  destruct (@finish_ends sample_parse [] [done_marker] [] finish_stop reads
              (Forall2_nil _) finish_stop_finishes)
    as (_ & _ & _ & _ & Hend).
  apply Hend. simpl. lia.
Qed.

(** C5, an instance: a fragment, the finishing event, the end marker. *)
Lemma finish_reason_closes_without_bytes_witness :
  Forall2 (passes sample_parse) [content_a] [[utf8 (js "a")]] /\
  finishes sample_parse finish_stop /\
  exists stream,
    OpenAIStream sample_host sample_flavour sample_version [] [] None
      sample_parse
      (answers (ok_response ([content_a] ++ finish_stop :: [done_marker])))
      sample_model sample_prompt sample_temperature sample_key sample_messages
    = inr stream /\
    forall reads,
      (exists rest, chunks (stream reads) ++ rest = [utf8 (js "a")]) /\
      (ending (stream reads) = Done ->
       chunks (stream reads) = [utf8 (js "a")]) /\
      ending (stream reads) <> Pending /\
      (Forall is_interval [done_marker] ->
       stream reads = {| chunks := [utf8 (js "a")]; ending := Done |}) /\
      (1 <= list_sum (firstn 2 reads) ->
       stream reads = {| chunks := [utf8 (js "a")]; ending := Done |}).
Proof.
  assert (Hp : Forall2 (passes sample_parse) [content_a] [[utf8 (js "a")]])
    by (constructor;
        [exact (passes_content content_a_carries eq_refl)|constructor]).
  split; [exact Hp|]. split; [exact finish_stop_finishes|].
  exact (@finish_reason_closes_without_bytes
           sample_host sample_flavour sample_version [] [] None sample_parse
           (answers (ok_response ([content_a] ++ finish_stop :: [done_marker])))
           sample_model sample_prompt sample_temperature
           sample_key sample_messages
           (ok_response ([content_a] ++ finish_stop :: [done_marker]))
           [content_a] [done_marker] [[utf8 (js "a")]]
           finish_stop eq_refl eq_refl eq_refl Hp finish_stop_finishes).
Defined.

(** C5 as first stated fails: a finishing event that comes after an event
    that is not JSON.  The stream has failed by then; the finishing event,
    the first with a finish_reason, does not make it end as a stream that
    closed. *)
Lemma finish_after_failure_does_not_close :
  malformed sample_parse done_marker
            (SyntaxError (js "Unexpected token in JSON")) /\
  finishes sample_parse finish_stop /\
  exists stream,
    OpenAIStream sample_host sample_flavour sample_version [] [] None
      sample_parse
      (answers (ok_response [done_marker; finish_stop]))
      sample_model sample_prompt sample_temperature sample_key sample_messages
    = inr stream /\
    forall reads,
      stream reads
      = {| chunks := [];
           ending := Failed (SyntaxError (js "Unexpected token in JSON")) |} /\
      ending (stream reads) <> Done.
Proof.
  split; [exact done_marker_malformed|]. split; [exact finish_stop_finishes|].
  eexists. split; [reflexivity|]. intros reads.
  destruct (@throw_fails sample_parse [] [finish_stop] [] done_marker
              (SyntaxError (js "Unexpected token in JSON")) reads
              (Forall2_nil _) (@verdict_malformed sample_parse done_marker _
                 done_marker_malformed))
    as (got & rest & Hout & Hgot).
  cbn [Response.body ok_response]. simpl app in Hout.
  apply app_eq_nil in Hgot as [-> _].
  rewrite Hout. split; [reflexivity|discriminate].
Qed.

(** What the amended C5 leaves out: a data event after the finishing one,
    while a chunk is still unread.  The close waits for the queue, the end
    marker throws, and [controller.error] drops the chunk and fails the
    stream; a reader that had asked for the chunk gets it, and the end. *)
Example unread_chunk_is_lost_to_the_end_marker :
  stream_of sample_parse [content_a; finish_stop; done_marker] []
  = {| chunks := [];
       ending := Failed (SyntaxError (js "Unexpected token in JSON")) |} /\
  stream_of sample_parse [content_a; finish_stop; done_marker] [1]
  = {| chunks := [utf8 (js "a")]; ending := Done |}.
Proof. split; vm_compute; reflexivity. Qed.

(** C2, an instance: a 401 with the error object of the upstream API. *)
Lemma upstream_error_becomes_OpenAIError_witness :
  OpenAIStream sample_host sample_flavour sample_version [] [] None
      sample_parse
      (answers rejected)
      sample_model sample_prompt sample_temperature sample_key sample_messages
  = inl (OpenAIError (js "Incorrect API key provided")
                     (VString (js "invalid_request_error")) VNull
                     (VString (js "invalid_api_key"))).
Proof.
  refine (@upstream_error_becomes_OpenAIError
            sample_host sample_flavour sample_version [] [] None sample_parse
            (answers rejected)
            sample_model sample_prompt sample_temperature
            sample_key sample_messages rejected _ _ _ _ _ _
            eq_refl _ eq_refl eq_refl eq_refl eq_refl eq_refl eq_refl).
  discriminate.
Defined.

(** C3, the code on a 500 response whose body is the JSON text of an empty
    object: whatever the status text of the response, the message of the
    error thrown ends in undefined, the statusText member the body does not
    have; it holds neither the status text nor the body. *)
Theorem status_text_is_lost (reason : jsstring) :
  OpenAIStream sample_host sample_flavour sample_version [] [] None
      sample_parse
      (answers (error_response 500 reason (VObject [])))
      sample_model sample_prompt sample_temperature sample_key sample_messages
  = inl (Error (js "OpenAI API returned an error: undefined")).
Proof. reflexivity. Qed.


(** C10, an instance: the JSON text of an empty object, on a new stream. *)
Lemma unreadable_shape_fails_like_malformed_json_witness :
  parses sample_parse empty_object (VObject []) /\
  ~ exposes (VObject []) /\
  exists k,
    onParse sample_parse empty_object new_ReadableStream
    = controller_error (TypeError (ReadOfNullish k)) new_ReadableStream.
Proof.
  assert (Hp : parses sample_parse empty_object (VObject []))
    by (vm_compute; reflexivity).
  destruct (@unreadable_shape_fails_like_malformed_json
              sample_parse empty_object (VObject []) new_ReadableStream Hp)
    as (Hhidden & _ & _ & _ & Habsent & _).
  assert (Hne : ~ exposes (VObject []))
    by (apply (Habsent []); [reflexivity|left; reflexivity]).
  split; [exact Hp|]. split; [exact Hne|].
  exact (Hhidden Hne).
Defined.

(** C10 as first stated fails: an event of unreadable shape after the
    finishing event.  As for the end marker, the stream has closed, and no
    failure ends it. *)
Lemma unreadable_shape_after_finish_is_no_failure :
  finishes sample_parse finish_stop /\
  parses sample_parse empty_object (VObject []) /\
  ~ exposes (VObject []) /\
  exists stream,
    OpenAIStream sample_host sample_flavour sample_version [] [] None
      sample_parse
      (answers (ok_response [finish_stop; empty_object]))
      sample_model sample_prompt sample_temperature sample_key sample_messages
    = inr stream /\
    forall reads, stream reads = {| chunks := []; ending := Done |}.
Proof.
  split; [exact finish_stop_finishes|].
  split; [vm_compute; reflexivity|].
  split; [intros (choice & Hpath & _); vm_compute in Hpath; discriminate|].
  eexists. split; [reflexivity|]. intros reads.
  destruct (@finish_ends sample_parse [] [empty_object] [] finish_stop reads
              (Forall2_nil _) finish_stop_finishes)
    as (_ & _ & _ & _ & Hend).
  apply Hend. simpl. lia.
Qed.

(** The three shapes of C10 on a stream still open, after one fragment that
    the reader has asked for: each fails the stream with the TypeError of
    the read that found nothing. *)
Example unreadable_shapes_fail_an_open_stream :
  stream_of sample_parse [content_a; empty_object; content_b] [1]
  = {| chunks := [utf8 (js "a")];
       ending := Failed (TypeError (ReadOfNullish (js "0"))) |} /\
  stream_of sample_parse [content_a; empty_choices; content_b] [1]
  = {| chunks := [utf8 (js "a")];
       ending := Failed (TypeError (ReadOfNullish (js "finish_reason"))) |} /\
  stream_of sample_parse [content_a; no_delta; content_b] [1]
  = {| chunks := [utf8 (js "a")];
       ending := Failed (TypeError (ReadOfNullish (js "content"))) |}.
Proof. repeat split; vm_compute; reflexivity. Qed.

(** A content that is an object with a toString member of its own: the
    encoder throws on it, and the stream fails as for the shapes above,
    after the fragment the reader had asked for. *)
Example unconvertible_content_fails_the_stream :
  parses parse_with_object content_object
         (delta_of (VObject [(js "toString", VNumber (js "1"))])) /\
  exposes (delta_of (VObject [(js "toString", VNumber (js "1"))])) /\
  stream_of parse_with_object [content_a; content_object; content_b] [1]
  = {| chunks := [utf8 (js "a")];
       ending := Failed (TypeError CannotConvert) |}.
Proof.
  split; [vm_compute; reflexivity|]. split; [|vm_compute; reflexivity].
  eexists. split; [vm_compute; reflexivity|]. split; [reflexivity|].
  right. eexists. split; vm_compute; reflexivity.
Qed.

(** A delta without content, as the upstream API sends first, goes through:
    it adds an empty chunk. *)
Example role_only_delta_adds_an_empty_chunk :
  stream_of sample_parse [role_only; content_a; finish_stop] []
  = {| chunks := [[]; utf8 (js "a")]; ending := Done |}.
Proof. vm_compute. reflexivity. Qed.

(** The body of the sample call, as text: the model of the caller is
    replaced where it stood, first, and the fixed members close the
    object. *)
Example sample_body_text :
  exists middle,
    Request.body
      (request sample_host sample_flavour sample_version [] [] None
         sample_model sample_prompt sample_temperature sample_key
         sample_messages)
    = VString
        (jsq "{`model`:`gpt-3.5-turbo-16k`,`messages`:[{`role`:`system`,`content`:`{\n"
         ++ middle ++
         jsq "},{`role`:`user`,`content`:`Hello`}],`max_tokens`:4000,`temperature`:0,`stream`:true}").
Proof.
  match goal with
  | |- exists _, ?b = _ =>
      let t := eval vm_compute in b in
      match t with
      | VString ?u =>
          exists (firstn (length u - 72 - 85) (skipn 72 u))
      end
  end.
  vm_compute. reflexivity.
Qed.

(** ** More of the adapter on the sample payloads *)


(** X2, an instance: a flavour named custom. *)
Lemma unknown_flavour_sends_no_key_witness :
  let sent :=
    request sample_host (js "custom") sample_version (js "org-1") []
      (Some (js "sk-env")) sample_model sample_prompt sample_temperature
      sample_key sample_messages in
  Request.url sent = js "https://api.openai.com/v1/chat/completions" /\
  Request.headers sent
  = VObject [(js "Content-Type", VString (js "application/json"))].
Proof.
  refine (@unknown_flavour_sends_no_key
            sample_host (js "custom") sample_version (js "org-1") []
            (Some (js "sk-env")) sample_model sample_prompt
            sample_temperature sample_key sample_messages _ _);
    discriminate.
Defined.

(** X3, instances: no key anywhere under the openai flavour, and the key of
    the environment under azure. *)
Lemma empty_key_falls_back_witness :
  Get (request_headers (js "openai") [] None []) (js "Authorization")
  = inr (VString (js "Bearer undefined")) /\
  Get (request_headers (js "azure") [] (Some (js "sk-env")) []) (js "api-key")
  = inr (VString (js "sk-env")).
Proof.
  split.
  - exact (proj1 (@empty_key_falls_back (js "openai") [] None) eq_refl).
  - exact (proj2 (@empty_key_falls_back (js "azure") [] (Some (js "sk-env")))
                 eq_refl).
Defined.

(** X6, instances: a 200 and a 401. *)
Lemma stream_only_for_status_200_witness :
  OpenAIStream sample_host sample_flavour sample_version [] [] None
    sample_parse (answers (ok_response [content_a; finish_stop]))
    sample_model sample_prompt sample_temperature sample_key sample_messages
  = inr (stream_of sample_parse [content_a; finish_stop]) /\
  exists e,
    OpenAIStream sample_host sample_flavour sample_version [] [] None
      sample_parse (answers rejected)
      sample_model sample_prompt sample_temperature sample_key sample_messages
    = inl e.
Proof.
  split.
  - exact (proj1 (@stream_only_for_status_200
                    sample_host sample_flavour sample_version [] [] None
                    sample_parse
                    (answers (ok_response [content_a; finish_stop]))
                    sample_model sample_prompt sample_temperature sample_key
                    sample_messages (ok_response [content_a; finish_stop])
                    eq_refl) eq_refl).
  - refine (proj2 (@stream_only_for_status_200
                     sample_host sample_flavour sample_version [] [] None
                     sample_parse (answers rejected)
                     sample_model sample_prompt sample_temperature sample_key
                     sample_messages rejected eq_refl) _).
    discriminate.
Defined.

(** X7, instances: an error that is null gives no OpenAIError, nor does an
    error whose message is an object with a toString member of its own;
    the error object of the upstream API gives one. *)
Lemma OpenAIError_only_for_truthy_error_witness :
  (~ exists m t p c,
       OpenAIStream sample_host sample_flavour sample_version [] [] None
         sample_parse (answers null_error)
         sample_model sample_prompt sample_temperature sample_key
         sample_messages
       = inl (OpenAIError m t p c)) /\
  (~ exists m t p c,
       OpenAIStream sample_host sample_flavour sample_version [] [] None
         sample_parse (answers unconvertible_message)
         sample_model sample_prompt sample_temperature sample_key
         sample_messages
       = inl (OpenAIError m t p c)) /\
  (exists m t p c,
     OpenAIStream sample_host sample_flavour sample_version [] [] None
       sample_parse (answers rejected)
       sample_model sample_prompt sample_temperature sample_key
       sample_messages
     = inl (OpenAIError m t p c)).
Proof.
  split; [|split].
  - intros H.
    assert (Hs : Response.status null_error <> 200%Z) by discriminate.
    destruct (proj1 (@OpenAIError_only_for_truthy_error
                       sample_host sample_flavour sample_version [] [] None
                       sample_parse (answers null_error)
                       sample_model sample_prompt sample_temperature sample_key
                       sample_messages null_error _ eq_refl Hs eq_refl) H)
      as (error & message & Hg & Ht & _).
    vm_compute in Hg. injection Hg as <-. discriminate.
  - intros H.
    assert (Hs : Response.status unconvertible_message <> 200%Z)
      by discriminate.
    destruct (proj1 (@OpenAIError_only_for_truthy_error
                       sample_host sample_flavour sample_version [] [] None
                       sample_parse (answers unconvertible_message)
                       sample_model sample_prompt sample_temperature sample_key
                       sample_messages unconvertible_message _
                       eq_refl Hs eq_refl) H)
      as (error & message & Hg & _ & Hm & Hc).
    vm_compute in Hg. injection Hg as <-.
    vm_compute in Hm. injection Hm as <-. discriminate.
  - assert (Hs : Response.status rejected <> 200%Z) by discriminate.
    apply (proj2 (@OpenAIError_only_for_truthy_error
                    sample_host sample_flavour sample_version [] [] None
                    sample_parse (answers rejected)
                    sample_model sample_prompt sample_temperature sample_key
                    sample_messages rejected _ eq_refl Hs eq_refl)).
    eexists _, (VString (js "Incorrect API key provided")).
    repeat split; vm_compute; reflexivity.
Defined.

(** X8, instances: JSON null, and a body with a value member. *)
Lemma null_body_and_value_member_throw_TypeError_witness :
  OpenAIStream sample_host sample_flavour sample_version [] [] None
    sample_parse (answers null_body)
    sample_model sample_prompt sample_temperature sample_key sample_messages
  = inl (TypeError (ReadOfNullish (js "error"))) /\
  OpenAIStream sample_host sample_flavour sample_version [] [] None
    sample_parse (answers value_member)
    sample_model sample_prompt sample_temperature sample_key sample_messages
  = inl (TypeError NotABufferSource).
Proof.
  split.
  - refine (proj1 (@null_body_and_value_member_throw_TypeError
                     sample_host sample_flavour sample_version [] [] None
                     sample_parse (answers null_body)
                     sample_model sample_prompt sample_temperature sample_key
                     sample_messages null_body eq_refl _) eq_refl).
    discriminate.
  - refine (proj2 (@null_body_and_value_member_throw_TypeError
                     sample_host sample_flavour sample_version [] [] None
                     sample_parse (answers value_member)
                     sample_model sample_prompt sample_temperature sample_key
                     sample_messages value_member eq_refl _)
                  _ VUndefined (VString (js "oops"))
                  eq_refl eq_refl eq_refl eq_refl _);
      discriminate.
Defined.

(** X9, instances: a network that fails, and a body that is not JSON. *)
Lemma rejections_pass_through_witness :
  OpenAIStream sample_host sample_flavour sample_version [] [] None
    sample_parse (fun _ => inl (TypeError FetchFailed))
    sample_model sample_prompt sample_temperature sample_key sample_messages
  = inl (TypeError FetchFailed) /\
  OpenAIStream sample_host sample_flavour sample_version [] [] None
    sample_parse (answers html_body)
    sample_model sample_prompt sample_temperature sample_key sample_messages
  = inl (SyntaxError (js "Unexpected token < in JSON")).
Proof.
  split.
  - exact (proj1 (@rejections_pass_through
                    sample_host sample_flavour sample_version [] [] None
                    sample_parse (fun _ => inl (TypeError FetchFailed))
                    sample_model sample_prompt sample_temperature sample_key
                    sample_messages (TypeError FetchFailed)) eq_refl).
  - refine (proj2 (@rejections_pass_through
                     sample_host sample_flavour sample_version [] [] None
                     sample_parse (answers html_body)
                     sample_model sample_prompt sample_temperature sample_key
                     sample_messages
                     (SyntaxError (js "Unexpected token < in JSON")))
                  html_body eq_refl _ eq_refl).
    discriminate.
Defined.

(** X10, an instance: an error given as a text. *)
Lemma error_that_is_no_object_loses_its_text_witness :
  OpenAIStream sample_host sample_flavour sample_version [] [] None
    sample_parse (answers error_as_text)
    sample_model sample_prompt sample_temperature sample_key sample_messages
  = inl (OpenAIError [] VUndefined VUndefined VUndefined).
Proof.
  refine (@error_that_is_no_object_loses_its_text
            sample_host sample_flavour sample_version [] [] None
            sample_parse (answers error_as_text)
            sample_model sample_prompt sample_temperature sample_key
            sample_messages error_as_text _
            (VString (js "Rate limit reached"))
            eq_refl _ eq_refl eq_refl eq_refl _);
    discriminate.
Defined.

(** X12, instances: the empty body, and a body of a reconnection interval
    and two fragments with no finishing event. *)
Lemma stream_is_left_open_without_finish_reason_witness :
  (forall reads,
      stream_of sample_parse [] reads
      = {| chunks := []; ending := Pending |}) /\
  (forall reads,
      stream_of sample_parse [ReconnectInterval 3; content_a; content_b] reads
      = {| chunks := [utf8 (js "a"); utf8 (js "b")]; ending := Pending |}).
Proof.
  split; intros reads.
  - exact (proj1 (@stream_is_left_open_without_finish_reason
                    sample_parse [] reads) [] (Forall2_nil _)).
  - exact (proj1 (@stream_is_left_open_without_finish_reason
                    sample_parse [ReconnectInterval 3; content_a; content_b]
                    reads)
                 [[]; [utf8 (js "a")]; [utf8 (js "b")]]
                 (Forall2_cons _ _ (passes_interval sample_parse 3)
                    (Forall2_cons _ _
                       (passes_content content_a_carries eq_refl)
                       (Forall2_cons _ _
                          (passes_content content_b_carries eq_refl)
                          (Forall2_nil _))))).
Defined.

(** X13, instances: two fragments and the end marker, the reader having
    asked for one chunk; and the same with, for the end marker, a content
    that the encoder does not convert. *)
Lemma failure_keeps_only_the_chunks_asked_for_witness :
  stream_of sample_parse ([content_a; content_b] ++ done_marker :: []) [0; 1]
  = {| chunks := [utf8 (js "a")];
       ending := Failed (SyntaxError (js "Unexpected token in JSON")) |} /\
  exists e,
    stream_of parse_with_object
      ([content_a; content_b] ++ content_object :: []) [0; 1]
    = {| chunks := [utf8 (js "a")]; ending := Failed e |}.
Proof.
  split.
  - destruct (@failure_keeps_only_the_chunks_asked_for
                sample_parse [content_a; content_b] []
                [[utf8 (js "a")]; [utf8 (js "b")]]
                done_marker [0; 1]
                (Forall2_cons _ _ (passes_content content_a_carries eq_refl)
                   (Forall2_cons _ _
                      (passes_content content_b_carries eq_refl)
                      (Forall2_nil _)))
                (or_introl (ex_intro _ _ done_marker_malformed)))
      as (e' & Hout & He).
    rewrite (He _ done_marker_malformed) in Hout. exact Hout.
  - assert (Ha : carries parse_with_object content_a (VString (js "a"))).
    { exists (delta_of (VString (js "a"))), VNull.
      repeat split; vm_compute; reflexivity. }
    assert (Hb : carries parse_with_object content_b (VString (js "b"))).
    { exists (delta_of (VString (js "b"))), VNull.
      repeat split; vm_compute; reflexivity. }
    assert (Hbad : exists json,
               parses parse_with_object content_object json /\
               ~ accepted json).
    { exists (delta_of (VObject [(js "toString", VNumber (js "1"))])).
      split; [vm_compute; reflexivity|].
      intros (choice & Hpath & _ & [(fr & Hfr & Hn)|(d & c & Hd & _ & Hc & Hv)]).
      - vm_compute in Hpath. injection Hpath as <-.
        vm_compute in Hfr. injection Hfr as <-. discriminate.
      - vm_compute in Hpath. injection Hpath as <-.
        vm_compute in Hd. injection Hd as <-.
        vm_compute in Hc. injection Hc as <-. discriminate. }
    destruct (@failure_keeps_only_the_chunks_asked_for
                parse_with_object [content_a; content_b] []
                [[utf8 (js "a")]; [utf8 (js "b")]]
                content_object [0; 1]
                (Forall2_cons _ _ (passes_content Ha eq_refl)
                   (Forall2_cons _ _ (passes_content Hb eq_refl)
                      (Forall2_nil _)))
                (or_intror Hbad))
      as (e' & Hout & _).
    exists e'. exact Hout.
Defined.

(** X14, an instance: two fragments, the finishing event and the end
    marker, the reader having asked for one chunk. *)
Lemma data_event_after_finish_drops_unread_chunks_witness :
  stream_of sample_parse
    ([content_a; content_b] ++ finish_stop :: done_marker :: []) [0; 1]
  = {| chunks := [utf8 (js "a")];
       ending := Failed (SyntaxError (js "Unexpected token in JSON")) |}.
Proof.
  destruct (@data_event_after_finish_drops_unread_chunks
              sample_parse [content_a; content_b] []
              [[utf8 (js "a")]; [utf8 (js "b")]]
              finish_stop done_marker [0; 1]
              (Forall2_cons _ _ (passes_content content_a_carries eq_refl)
                 (Forall2_cons _ _ (passes_content content_b_carries eq_refl)
                    (Forall2_nil _)))
              finish_stop_finishes (fun H => H) (le_n 2))
    as (e & Hout & He & _).
  rewrite <- (He _ done_marker_malformed). exact Hout.
Defined.


(** X16, an instance: a delta whose content is null. *)
Lemma null_content_is_emitted_as_text_witness :
  stream_of parse_with_null [content_null; finish_stop] []
  = {| chunks := [utf8 (js "null")]; ending := Done |}.
Proof.
  refine (@null_content_is_emitted_as_text
            parse_with_null content_null finish_stop VNull [] _ eq_refl _).
  - exists (delta_of VNull), VNull. repeat split; vm_compute; reflexivity.
  - eexists _, (VString (js "stop")). repeat split; vm_compute; reflexivity.
Defined.
